(** * HEPLAST filament-extruder controller (Sources/HEPLAST_14_25.ino)

    A shallow embedding of the Arduino sketch: its global variables, the
    output pins it drives, and one pass of [loop()] as a state transformer
    over a per-pass record of input samples.  The target is an Arduino
    Uno/Nano (AVR): [int] is 16 bits, [long] and [unsigned long] are 32
    bits, [float] is IEEE binary32.

    Not modelled: the per-pass telemetry line on Serial and the per-pass
    text on row 0 of the LCD (formatted numbers, written and never read
    back), [pinMode] and the [delay] calls. *)

From Stdlib Require Import ZArith QArith Qabs Bool List String Lia.
From Stdlib Require Import Floats.SpecFloat.
From Stdlib Require Import Qround.
Import ListNotations.
Local Open Scope Z_scope.

(** ** Machine arithmetic of the AVR target *)

Module AVR.

(** Two's-complement reduction of [x] to [w] bits. *)
Definition wrap_signed (w x : Z) : Z :=
  (x + 2 ^ (w - 1)) mod 2 ^ w - 2 ^ (w - 1).

(** [int] *)
Definition int (x : Z) : Z := wrap_signed 16 x.
(** [long] *)
Definition long (x : Z) : Z := wrap_signed 32 x.
(** [unsigned long] *)
Definition ulong (x : Z) : Z := x mod 2 ^ 32.

Definition INT_MIN : Z := - 2 ^ 15.
Definition INT_MAX : Z := 2 ^ 15 - 1.
Definition in_int (x : Z) : Prop := INT_MIN <= x <= INT_MAX.

(** [float]: binary32, 24 bits of precision, largest exponent 128. *)
Definition prec : Z := 24.
Definition emax : Z := 128.
Definition float : Type := spec_float.

(** Conversion of an integer to [float], round to nearest even. *)
Definition float_of_Z (n : Z) : float := binary_normalize prec emax n 0 false.
Definition fdiv (x y : float) : float := SFdiv prec emax x y.
Definition flt (x y : float) : bool := SFltb x y.
Definition fle (x y : float) : bool := SFleb x y.

(** The rational a finite float denotes (0 for infinities and NaN). *)
Definition Q_of_float (f : float) : Q :=
  match f with
  | S754_finite s m e =>
      (inject_Z (if s then Z.neg m else Z.pos m) * Qpower (2 # 1) e)%Q
  | _ => 0%Q
  end.

End AVR.

(** ** The Arduino core functions the sketch calls *)

(** Logic levels, [#define LOW 0x0] and [#define HIGH 0x1]. *)
Definition LOW : Z := 0.
Definition HIGH : Z := 1.

(** [long map(long x, long in_min, long in_max, long out_min, long out_max)]
    of the Arduino core (WMath.cpp), which the sketch calls for both the
    duty and the speed:
    [(x - in_min) * (out_max - out_min) / (in_max - in_min) + out_min],
    every operation in [long]; C++ division truncates toward zero. *)
Definition map (x in_min in_max out_min out_max : Z) : Z :=
  AVR.long
    (AVR.long
       (Z.quot
          (AVR.long (AVR.long (x - in_min) * AVR.long (out_max - out_min)))
          (AVR.long (in_max - in_min)))
     + out_min).

(** ** Pins, configuration constants and state *)

(** The output pins ([#define]s of the sketch). *)
Inductive Pin : Set :=
| LED_READY | HEATER_LED | RELAY_PIN | MOTOR_ENB | MOTOR_IN3 | MOTOR_IN4.

(** What the sketch hands to the outside, in program order. *)
Inductive Event : Set :=
| DigitalWrite (p : Pin) (level : Z)
| AnalogWrite (p : Pin) (duty : Z)
| LcdPrint (row : Z) (text : string)
| SerialLine (text : string).

(** The [const] globals under "Configuration Constants". *)
Record Config : Type := {
  targetTemp : AVR.float;
  roomTempMock : AVR.float;
  potZeroThreshold : Z;
  maxBreathBrightness : Z;
  fadeDelay : Z
}.

(** The values the sketch is built with. *)
Definition heplast : Config := {|
  targetTemp := AVR.float_of_Z 20;
  roomTempMock := AVR.float_of_Z 27;
  potZeroThreshold := 20;
  maxBreathBrightness := 50;
  fadeDelay := 80
|}.

(** The mutable globals under "System State", the value last written to
    each output pin, and the trace of writes (most recent first). *)
Record Sketch : Type := {
  systemReady : bool;
  fadeValue : Z;
  fadeAmount : Z;
  prevFadeMillis : Z;
  led_ready : Z;
  heater_led : Z;
  relay_pin : Z;
  motor_enb : Z;
  motor_in3 : Z;
  motor_in4 : Z;
  trace : list Event
}.

(** What one pass of [loop()] samples: [analogRead(POT_SPEED)],
    [digitalRead(BUTTON_PIN)], and the two readings of [millis()] (the
    one compared against [prevFadeMillis] and the one stored into it). *)
Record Inputs : Type := {
  pot : Z;
  button : Z;
  millis_test : Z;
  millis_stamp : Z
}.

(** ** Commands *)

Definition Cmd : Type := Sketch -> Sketch.

Definition skip : Cmd := fun s => s.
Definition andThen (c1 c2 : Cmd) : Cmd := fun s => c2 (c1 s).
Definition ifte (b : Sketch -> bool) (c1 c2 : Cmd) : Cmd :=
  fun s => if b s then c1 s else c2 s.
Definition when (b : Sketch -> bool) (c : Cmd) : Cmd := ifte b c skip.

Declare Scope cmd_scope.
Delimit Scope cmd_scope with cmd.
Bind Scope cmd_scope with Cmd.
Notation "c1 ;; c2" := (andThen c1 c2)
  (at level 61, right associativity) : cmd_scope.

Definition emit (e : Event) : Cmd := fun s =>
  {| systemReady := systemReady s; fadeValue := fadeValue s;
     fadeAmount := fadeAmount s; prevFadeMillis := prevFadeMillis s;
     led_ready := led_ready s; heater_led := heater_led s;
     relay_pin := relay_pin s; motor_enb := motor_enb s;
     motor_in3 := motor_in3 s; motor_in4 := motor_in4 s;
     trace := e :: trace s |}.

(** Latch value [v] on pin [p]. *)
Definition drive (p : Pin) (v : Z) : Cmd := fun s =>
  {| systemReady := systemReady s; fadeValue := fadeValue s;
     fadeAmount := fadeAmount s; prevFadeMillis := prevFadeMillis s;
     led_ready := match p with LED_READY => v | _ => led_ready s end;
     heater_led := match p with HEATER_LED => v | _ => heater_led s end;
     relay_pin := match p with RELAY_PIN => v | _ => relay_pin s end;
     motor_enb := match p with MOTOR_ENB => v | _ => motor_enb s end;
     motor_in3 := match p with MOTOR_IN3 => v | _ => motor_in3 s end;
     motor_in4 := match p with MOTOR_IN4 => v | _ => motor_in4 s end;
     trace := trace s |}.

Definition digitalWrite (p : Pin) (level : Z) : Cmd :=
  (drive p level ;; emit (DigitalWrite p level))%cmd.

Definition analogWrite (p : Pin) (duty : Z) : Cmd :=
  (drive p duty ;; emit (AnalogWrite p duty))%cmd.

(** [lcd.setCursor(0, row); lcd.print(text);] *)
Definition lcd_print (row : Z) (text : string) : Cmd :=
  emit (LcdPrint row text).
Definition Serial_println (text : string) : Cmd := emit (SerialLine text).

Definition set_systemReady (b : bool) : Cmd := fun s =>
  {| systemReady := b; fadeValue := fadeValue s;
     fadeAmount := fadeAmount s; prevFadeMillis := prevFadeMillis s;
     led_ready := led_ready s; heater_led := heater_led s;
     relay_pin := relay_pin s; motor_enb := motor_enb s;
     motor_in3 := motor_in3 s; motor_in4 := motor_in4 s;
     trace := trace s |}.

Definition set_fadeValue (v : Z) : Cmd := fun s =>
  {| systemReady := systemReady s; fadeValue := v;
     fadeAmount := fadeAmount s; prevFadeMillis := prevFadeMillis s;
     led_ready := led_ready s; heater_led := heater_led s;
     relay_pin := relay_pin s; motor_enb := motor_enb s;
     motor_in3 := motor_in3 s; motor_in4 := motor_in4 s;
     trace := trace s |}.

Definition set_fadeAmount (v : Z) : Cmd := fun s =>
  {| systemReady := systemReady s; fadeValue := fadeValue s;
     fadeAmount := v; prevFadeMillis := prevFadeMillis s;
     led_ready := led_ready s; heater_led := heater_led s;
     relay_pin := relay_pin s; motor_enb := motor_enb s;
     motor_in3 := motor_in3 s; motor_in4 := motor_in4 s;
     trace := trace s |}.

Definition set_prevFadeMillis (v : Z) : Cmd := fun s =>
  {| systemReady := systemReady s; fadeValue := fadeValue s;
     fadeAmount := fadeAmount s; prevFadeMillis := v;
     led_ready := led_ready s; heater_led := heater_led s;
     relay_pin := relay_pin s; motor_enb := motor_enb s;
     motor_in3 := motor_in3 s; motor_in4 := motor_in4 s;
     trace := trace s |}.

(** ** The sketch *)

Section Controller.

Variable cfg : Config.

(** [map(potVal, 0, 1023, 0, 300)], the target speed in hundredths. *)
Definition rpmCenti (potVal : Z) : Z := map potVal 0 1023 0 300.

(** [float rpmTarget = map(potVal, 0, 1023, 0, 300) / 100.0;] *)
Definition rpmTarget (potVal : Z) : AVR.float :=
  AVR.fdiv (AVR.float_of_Z (rpmCenti potVal)) (AVR.float_of_Z 100).

(** [int motorPWM = map(potVal, 0, 1023, 0, 255);] *)
Definition motorPWM (potVal : Z) : Z := AVR.int (map potVal 0 1023 0 255).

(** Lines 130-134, the body of the fade timer's [if]. *)
Definition breathe (now : Z) : Cmd :=
  ((fun s => set_fadeValue (AVR.int (fadeValue s + fadeAmount s)) s) ;;
   when (fun s => (fadeValue s <=? 0) ||
                  (fadeValue s >=? maxBreathBrightness cfg))
        (fun s => set_fadeAmount (AVR.int (- fadeAmount s)) s) ;;
   (fun s => analogWrite LED_READY (fadeValue s) s) ;;
   set_prevFadeMillis (AVR.ulong now))%cmd.

(** Lines 129-135: [if (millis() - prevFadeMillis >= fadeDelay) {...}],
    compared in [unsigned long]. *)
Definition fade_timer (i : Inputs) : Cmd :=
  when (fun s => AVR.ulong (AVR.ulong (millis_test i) - prevFadeMillis s)
                 >=? AVR.ulong (fadeDelay cfg))
       (breathe (millis_stamp i)).

(** Lines 137-150: the arm test. *)
Definition arm_test (i : Inputs) : Cmd :=
  if pot i <? potZeroThreshold cfg then
    (lcd_print 1 "Press Button...  " ;;
     (if button i =? LOW then
        set_systemReady true ;;
        analogWrite LED_READY (maxBreathBrightness cfg) ;;
        lcd_print 1 "System Active    " ;;
        Serial_println ">> SYSTEM UNLOCKED <<"
      else skip))%cmd
  else
    lcd_print 1 "Set pot to zero  ".

(** Lines 152-157: "Ensure everything is OFF". *)
Definition all_off : Cmd :=
  (digitalWrite RELAY_PIN LOW ;;
   digitalWrite HEATER_LED LOW ;;
   analogWrite MOTOR_ENB 0 ;;
   digitalWrite MOTOR_IN3 LOW ;;
   digitalWrite MOTOR_IN4 LOW)%cmd.

(** The [if (!systemReady)] branch, "LOCKED STATE". *)
Definition locked_state (i : Inputs) : Cmd :=
  (fade_timer i ;; arm_test i ;; all_off)%cmd.

(** The [else] branch, "UNLOCKED STATE". *)
Definition unlocked_state (i : Inputs) : Cmd :=
  (analogWrite LED_READY (maxBreathBrightness cfg) ;;
   lcd_print 1 "System Active    " ;;
   digitalWrite MOTOR_IN3 HIGH ;;
   digitalWrite MOTOR_IN4 LOW ;;
   analogWrite MOTOR_ENB (motorPWM (pot i)) ;;
   (if AVR.flt (roomTempMock cfg) (targetTemp cfg) then
      digitalWrite RELAY_PIN HIGH ;;
      digitalWrite HEATER_LED HIGH
    else
      digitalWrite RELAY_PIN LOW ;;
      digitalWrite HEATER_LED LOW))%cmd.

(** One pass of [loop()]. *)
Definition loop (i : Inputs) : Cmd :=
  ifte (fun s => negb (systemReady s)) (locked_state i) (unlocked_state i).

(** Consecutive passes, one per element of the input stream. *)
Fixpoint run (ins : list Inputs) (s : Sketch) : Sketch :=
  match ins with
  | [] => s
  | i :: ins' => run ins' (loop i s)
  end.

End Controller.

(** The globals as initialised, every pin at its reset level. *)
Definition power_on : Sketch := {|
  systemReady := false; fadeValue := 0; fadeAmount := 2; prevFadeMillis := 0;
  led_ready := 0; heater_led := 0; relay_pin := 0;
  motor_enb := 0; motor_in3 := 0; motor_in4 := 0;
  trace := []
|}.

(** [setup()]: "Initial system OFF", then the banner. *)
Definition setup : Cmd :=
  (digitalWrite RELAY_PIN LOW ;;
   digitalWrite HEATER_LED LOW ;;
   analogWrite MOTOR_ENB 0 ;;
   digitalWrite MOTOR_IN3 LOW ;;
   digitalWrite MOTOR_IN4 LOW ;;
   lcd_print 0 "System Locked")%cmd.

Definition boot : Sketch := setup power_on.

(** ** Observations *)

(** The persistent state of the sketch. *)
Definition globals (s : Sketch) : bool * Z * Z * Z :=
  (systemReady s, fadeValue s, fadeAmount s, prevFadeMillis s).

(** The levels on the six output pins. *)
Definition outputs (s : Sketch) : Z * Z * Z * Z * Z * Z :=
  (led_ready s, heater_led s, relay_pin s,
   motor_enb s, motor_in3 s, motor_in4 s).

(** Motor stopped, both direction lines low, relay and heater LED off. *)
Definition actuators_off (s : Sketch) : Prop :=
  motor_enb s = 0 /\ motor_in3 s = LOW /\ motor_in4 s = LOW /\
  relay_pin s = LOW /\ heater_led s = LOW.

(** A write that does not energise a power actuator: anything on the
    status LED, the display or Serial, and a 0 on any other pin. *)
Definition harmless (e : Event) : bool :=
  match e with
  | DigitalWrite LED_READY _ | AnalogWrite LED_READY _ => true
  | DigitalWrite _ v | AnalogWrite _ v => v =? 0
  | LcdPrint _ _ | SerialLine _ => true
  end.

(** The arm condition, lines 137 and 140 together. *)
Definition arm_condition (cfg : Config) (i : Inputs) : bool :=
  (pot i <? potZeroThreshold cfg) && (button i =? LOW).

(** The fade timer's test, line 129. *)
Definition fade_due (cfg : Config) (i : Inputs) (s : Sketch) : bool :=
  AVR.ulong (AVR.ulong (millis_test i) - prevFadeMillis s)
  >=? AVR.ulong (fadeDelay cfg).

(** The level of line 171's test, [roomTempMock < targetTemp]. *)
Definition heater_level (cfg : Config) : Z :=
  if AVR.flt (roomTempMock cfg) (targetTemp cfg) then HIGH else LOW.

(** The writes of "Ensure everything is OFF", most recent first. *)
Definition off_writes : list Event :=
  [DigitalWrite MOTOR_IN4 LOW; DigitalWrite MOTOR_IN3 LOW;
   AnalogWrite MOTOR_ENB 0; DigitalWrite HEATER_LED LOW;
   DigitalWrite RELAY_PIN LOW].

(** The writes of the arm test, most recent first. *)
Definition arm_writes (cfg : Config) (i : Inputs) : list Event :=
  if pot i <? potZeroThreshold cfg then
    (if button i =? LOW then
       [SerialLine ">> SYSTEM UNLOCKED <<"; LcdPrint 1 "System Active    ";
        AnalogWrite LED_READY (maxBreathBrightness cfg)]
     else []) ++ [LcdPrint 1 "Press Button...  "]
  else [LcdPrint 1 "Set pot to zero  "].

(** The writes of an unlocked pass, most recent first. *)
Definition unlocked_writes (cfg : Config) (i : Inputs) : list Event :=
  [DigitalWrite HEATER_LED (heater_level cfg);
   DigitalWrite RELAY_PIN (heater_level cfg);
   AnalogWrite MOTOR_ENB (motorPWM (pot i));
   DigitalWrite MOTOR_IN4 LOW; DigitalWrite MOTOR_IN3 HIGH;
   LcdPrint 1 "System Active    ";
   AnalogWrite LED_READY (maxBreathBrightness cfg)].

(** What claim C3 expects on the pins after the arming pass: the levels
    of the unlocked branch. *)
Definition armed_actuation (cfg : Config) (i : Inputs) (s : Sketch) : Prop :=
  motor_enb s = motorPWM (pot i) /\ motor_in3 s = HIGH /\ motor_in4 s = LOW /\
  relay_pin s = heater_level cfg /\ heater_led s = heater_level cfg.

(** *** Sample passes and states *)

(** The sketch rebuilt for a room at 19.0, below the target. *)
Definition cold_room : Config := {|
  targetTemp := AVR.float_of_Z 20;
  roomTempMock := AVR.float_of_Z 19;
  potZeroThreshold := 20;
  maxBreathBrightness := 50;
  fadeDelay := 80
|}.

(** Pot at 500, button released. *)
Definition pot_up_pass : Inputs :=
  {| pot := 500; button := HIGH; millis_test := 20; millis_stamp := 20 |}.

(** Pot at 10, button released. *)
Definition pot_zero_pass : Inputs :=
  {| pot := 10; button := HIGH; millis_test := 40; millis_stamp := 40 |}.

(** A pass that arms: pot at zero, button pressed, no fade update due. *)
Definition arming_pass : Inputs :=
  {| pot := 10; button := LOW; millis_test := 40; millis_stamp := 40 |}.

(** A pass with the pot turned up and the button held down. *)
Definition held_button_pass : Inputs :=
  {| pot := 50; button := LOW; millis_test := 100; millis_stamp := 101 |}.

(** A pass with the pot at full scale and the button released. *)
Definition full_speed_pass : Inputs :=
  {| pot := 1023; button := HIGH; millis_test := 200; millis_stamp := 200 |}.

(** The sketch armed half-way down the fade. *)
Definition armed_mid_fade : Sketch :=
  {| systemReady := true; fadeValue := 24; fadeAmount := -2;
     prevFadeMillis := 960; led_ready := 50; heater_led := 0;
     relay_pin := 0; motor_enb := 0; motor_in3 := 0; motor_in4 := 0;
     trace := [] |}.

(** ** The input sampler: derived quantities *)

(** The integers [0 .. n]. *)
Definition upto (n : nat) : list Z := List.map Z.of_nat (List.seq 0 (S n)).

(** [n / 100.0] for a [long] [n]. *)
Definition hundredths (n : Z) : AVR.float :=
  AVR.fdiv (AVR.float_of_Z n) (AVR.float_of_Z 100).

(** The linear rescale with exact division, over the rationals. *)
Definition exact_map (x in_min in_max out_min out_max : Q) : Q :=
  ((x - in_min) * (out_max - out_min) / (in_max - in_min) + out_min)%Q.

(** The target speed the way claim C8 words it: the exact rescale of the
    raw value from 0..1023 to 0..300, divided by 100. *)
Definition exact_targetSpeed (v : Z) : Q :=
  (exact_map (inject_Z v) 0 (1023 # 1) 0 (300 # 1) / (100 # 1))%Q.

(** [0 <= x <= 3.0] on floats. *)
Definition speed_in_range (x : AVR.float) : bool :=
  AVR.fle (AVR.float_of_Z 0) x && AVR.fle x (AVR.float_of_Z 3).

(** What claim C5 promises of a raw reading [v]: a duty in [0, 255] and a
    target speed in [0, 3.0]. *)
Definition derived_in_range (v : Z) : Prop :=
  0 <= motorPWM v <= 255 /\ speed_in_range (rpmTarget v) = true.

(** [x] is within relative error [2^-24] of [n / 100]. *)
Definition rounds_hundredths (n : Z) (x : AVR.float) : bool :=
  Qle_bool (Qabs (AVR.Q_of_float x - (n # 100)) * (2 ^ 24 # 1)) (n # 100).

(** The pairs [(k, k / 100.0)] for [k] in [0 .. n]. *)
Definition hundredths_table (n : nat) : list (Z * AVR.float) :=
  List.map (fun k => (k, hundredths k)) (upto n).

(** Every pair of entries of [tbl] that is ordered by key is ordered by
    value, as floats and as the rationals they denote. *)
Definition pairs_sorted (tbl : list (Z * AVR.float)) : bool :=
  forallb (fun a =>
    forallb (fun b =>
      implb (fst a <=? fst b)
            (AVR.fle (snd a) (snd b) &&
             Qle_bool (AVR.Q_of_float (snd a)) (AVR.Q_of_float (snd b))))
      tbl)
    tbl.

(** [hundredths] is non-decreasing on [0 .. n]. *)
Definition hundredths_sorted (n : nat) : bool :=
  pairs_sorted (hundredths_table n).

(** ** The breathing LED *)

(** The triangle wave 0, 2, ..., 48, 50, 48, ..., 2, 0, 2, ... and its
    slope: what [fadeValue] and [fadeAmount] hold after [n] fade updates
    of the sketch as built. *)
Definition triangle (n : nat) : Z :=
  let k := Z.of_nat n mod 50 in
  if k <=? 25 then 2 * k else 100 - 2 * k.

Definition slope (n : nat) : Z :=
  if Z.of_nat n mod 50 <? 25 then 2 else -2.

(** How many passes of a run perform a fade update: those entered with
    [systemReady] false on which the fade timer's test holds. *)
Fixpoint fade_updates (cfg : Config) (ins : list Inputs) (s : Sketch) : nat :=
  match ins with
  | [] => O
  | i :: ins' =>
      ((if negb (systemReady s) && fade_due cfg i s then 1 else 0)
       + fade_updates cfg ins' (loop cfg i s))%nat
  end.

(** The fade is at phase [n] of the wave and the status LED is within
    [0, 50]. *)
Definition at_phase (n : nat) (s : Sketch) : Prop :=
  fadeValue s = triangle n /\ fadeAmount s = slope n /\
  0 <= led_ready s <= 50.

(** ** Observations on traces and runs *)

(** The brightness a fade update moves to, line 130. *)
Definition next_fadeValue (s : Sketch) : Z :=
  AVR.int (fadeValue s + fadeAmount s).

(** The write of the fade timer in one pass, if it is due. *)
Definition fade_writes (cfg : Config) (i : Inputs) (s : Sketch) : list Event :=
  if fade_due cfg i s then [AnalogWrite LED_READY (next_fadeValue s)] else [].

(** The notification of line 145. *)
Definition is_unlock_notice (e : Event) : bool :=
  match e with
  | SerialLine t => String.eqb t ">> SYSTEM UNLOCKED <<"
  | _ => false
  end.

Definition unlock_notices (tr : list Event) : nat :=
  List.length (filter is_unlock_notice tr).

(** The text most recently printed on LCD row [row]. *)
Fixpoint last_lcd (row : Z) (tr : list Event) : option string :=
  match tr with
  | [] => None
  | LcdPrint r t :: tr' => if r =? row then Some t else last_lcd row tr'
  | _ :: tr' => last_lcd row tr'
  end.

(** The phrase row 1 should carry after a pass on inputs [i] that ends
    with [systemReady = ready]. *)
Definition status_phrase (cfg : Config) (i : Inputs) (ready : bool) : string :=
  if ready then "System Active    "
  else if pot i <? potZeroThreshold cfg then "Press Button...  "
  else "Set pot to zero  ".

(** A write the pins accept: a logic level on [digitalWrite], a duty in
    [0, 255] on [analogWrite]. *)
Definition valid_write (e : Event) : bool :=
  match e with
  | DigitalWrite _ v => (v =? LOW) || (v =? HIGH)
  | AnalogWrite _ d => (0 <=? d) && (d <=? 255)
  | LcdPrint _ _ | SerialLine _ => true
  end.

(** A write that leaves IN4 low. *)
Definition no_reverse_write (e : Event) : bool :=
  match e with
  | DigitalWrite MOTOR_IN4 v | AnalogWrite MOTOR_IN4 v => v =? LOW
  | _ => true
  end.

(** A write that leaves the relay and the heater LED low. *)
Definition heater_idle_write (e : Event) : bool :=
  match e with
  | DigitalWrite RELAY_PIN v | AnalogWrite RELAY_PIN v
  | DigitalWrite HEATER_LED v | AnalogWrite HEATER_LED v => v =? LOW
  | _ => true
  end.

(** The lowest raw reading that gives duty [d], and the lowest that gives
    [n] hundredths. *)
Definition pot_for_duty (d : Z) : Z := (d * 1023 + 254) / 255.
Definition pot_for_centi (n : Z) : Z := (n * 1023 + 299) / 300.

(** The hundredths nearest to a float. *)
Definition centi_of_float (x : AVR.float) : Z :=
  Qfloor (AVR.Q_of_float x * (100 # 1) + (1 # 2))%Q.

(** A pass whose clock readings sit ten ticks before [millis()] rolls
    over, and one whose unwrapped clock is 100 ms later. *)
Definition before_rollover_pass : Inputs :=
  {| pot := 500; button := HIGH;
     millis_test := 2 ^ 32 - 10; millis_stamp := 2 ^ 32 - 10 |}.

Definition after_rollover_pass : Inputs :=
  {| pot := 500; button := HIGH;
     millis_test := 2 ^ 32 - 10 + 100; millis_stamp := 2 ^ 32 - 10 + 100 |}.

(** ** The blocks of a pass, as state updates *)

Lemma all_off_eq (s : Sketch) :
  all_off s =
  {| systemReady := systemReady s; fadeValue := fadeValue s;
     fadeAmount := fadeAmount s; prevFadeMillis := prevFadeMillis s;
     led_ready := led_ready s; heater_led := LOW; relay_pin := LOW;
     motor_enb := 0; motor_in3 := LOW; motor_in4 := LOW;
     trace := off_writes ++ trace s |}.
Proof. reflexivity. Qed.

Lemma arm_test_eq (cfg : Config) (i : Inputs) (s : Sketch) :
  arm_test cfg i s =
  {| systemReady := if arm_condition cfg i then true else systemReady s;
     fadeValue := fadeValue s;
     fadeAmount := fadeAmount s; prevFadeMillis := prevFadeMillis s;
     led_ready := if arm_condition cfg i then maxBreathBrightness cfg
                  else led_ready s;
     heater_led := heater_led s; relay_pin := relay_pin s;
     motor_enb := motor_enb s; motor_in3 := motor_in3 s;
     motor_in4 := motor_in4 s;
     trace := arm_writes cfg i ++ trace s |}.
Proof.
  unfold arm_test, arm_condition, arm_writes.
  destruct s.
  destruct (pot i <? potZeroThreshold cfg); [|reflexivity].
  destruct (button i =? LOW); reflexivity.
Qed.

Lemma breathe_eq (cfg : Config) (now : Z) (s : Sketch) :
  let v := AVR.int (fadeValue s + fadeAmount s) in
  breathe cfg now s =
  {| systemReady := systemReady s; fadeValue := v;
     fadeAmount := if (v <=? 0) || (v >=? maxBreathBrightness cfg)
                   then AVR.int (- fadeAmount s) else fadeAmount s;
     prevFadeMillis := AVR.ulong now;
     led_ready := v;
     heater_led := heater_led s; relay_pin := relay_pin s;
     motor_enb := motor_enb s; motor_in3 := motor_in3 s;
     motor_in4 := motor_in4 s;
     trace := AnalogWrite LED_READY v :: trace s |}.
Proof.
  destruct s. unfold breathe, andThen, when, ifte, skip, analogWrite.
  cbv beta iota delta [set_fadeValue fadeValue fadeAmount].
  match goal with
  | |- context [if ?b then _ else _] => destruct b
  end; reflexivity.
Qed.

Lemma unlocked_state_eq (cfg : Config) (i : Inputs) (s : Sketch) :
  unlocked_state cfg i s =
  {| systemReady := systemReady s; fadeValue := fadeValue s;
     fadeAmount := fadeAmount s; prevFadeMillis := prevFadeMillis s;
     led_ready := maxBreathBrightness cfg;
     heater_led := heater_level cfg; relay_pin := heater_level cfg;
     motor_enb := motorPWM (pot i); motor_in3 := HIGH; motor_in4 := LOW;
     trace := unlocked_writes cfg i ++ trace s |}.
Proof.
  unfold unlocked_state, unlocked_writes, heater_level.
  destruct (AVR.flt (roomTempMock cfg) (targetTemp cfg)); reflexivity.
Qed.

Lemma fade_timer_eq (cfg : Config) (i : Inputs) (s : Sketch) :
  fade_timer cfg i s =
  if fade_due cfg i s then breathe cfg (millis_stamp i) s else s.
Proof. reflexivity. Qed.

Lemma locked_state_eq (cfg : Config) (i : Inputs) (s : Sketch) :
  locked_state cfg i s = all_off (arm_test cfg i (fade_timer cfg i s)).
Proof. reflexivity. Qed.

Ltac fields :=
  cbn [systemReady fadeValue fadeAmount prevFadeMillis led_ready heater_led
       relay_pin motor_enb motor_in3 motor_in4 trace].

Lemma loop_locked (cfg : Config) (i : Inputs) (s : Sketch) :
  systemReady s = false -> loop cfg i s = locked_state cfg i s.
Proof. intros H. unfold loop, ifte. now rewrite H. Qed.

Lemma loop_unlocked (cfg : Config) (i : Inputs) (s : Sketch) :
  systemReady s = true -> loop cfg i s = unlocked_state cfg i s.
Proof. intros H. unfold loop, ifte. now rewrite H. Qed.

Lemma fade_timer_ready (cfg : Config) (i : Inputs) (s : Sketch) :
  systemReady (fade_timer cfg i s) = systemReady s.
Proof.
  rewrite fade_timer_eq. destruct (fade_due cfg i s); [|reflexivity].
  now rewrite breathe_eq.
Qed.

Lemma fade_timer_trace (cfg : Config) (i : Inputs) (s : Sketch) :
  trace (fade_timer cfg i s) =
  (if fade_due cfg i s
   then [AnalogWrite LED_READY (AVR.int (fadeValue s + fadeAmount s))]
   else []) ++ trace s.
Proof.
  rewrite fade_timer_eq. destruct (fade_due cfg i s); [|reflexivity].
  now rewrite breathe_eq.
Qed.

Lemma locked_state_off (cfg : Config) (i : Inputs) (s : Sketch) :
  actuators_off (locked_state cfg i s).
Proof.
  rewrite locked_state_eq, all_off_eq. unfold actuators_off. fields.
  repeat split.
Qed.

Lemma locked_state_ready (cfg : Config) (i : Inputs) (s : Sketch) :
  systemReady s = false ->
  systemReady (locked_state cfg i s) = arm_condition cfg i.
Proof.
  intros H. rewrite locked_state_eq, all_off_eq, arm_test_eq. fields.
  rewrite fade_timer_ready, H. now destruct (arm_condition cfg i).
Qed.

Lemma locked_state_led (cfg : Config) (i : Inputs) (s : Sketch) :
  led_ready (locked_state cfg i s) =
  if arm_condition cfg i then maxBreathBrightness cfg
  else led_ready (fade_timer cfg i s).
Proof. rewrite locked_state_eq, all_off_eq, arm_test_eq. reflexivity. Qed.

Lemma locked_state_fade (cfg : Config) (i : Inputs) (s : Sketch) :
  fadeValue (locked_state cfg i s) = fadeValue (fade_timer cfg i s) /\
  fadeAmount (locked_state cfg i s) = fadeAmount (fade_timer cfg i s) /\
  prevFadeMillis (locked_state cfg i s) = prevFadeMillis (fade_timer cfg i s).
Proof.
  rewrite locked_state_eq, all_off_eq, arm_test_eq. fields. repeat split.
Qed.

Lemma locked_state_trace (cfg : Config) (i : Inputs) (s : Sketch) :
  exists evs, trace (locked_state cfg i s) = evs ++ trace s /\
              forallb harmless evs = true.
Proof.
  rewrite locked_state_eq, all_off_eq, arm_test_eq. fields.
  rewrite fade_timer_trace, !app_assoc.
  eexists. split; [reflexivity|].
  rewrite !forallb_app. unfold arm_writes.
  destruct (fade_due cfg i s), (pot i <? potZeroThreshold cfg),
    (button i =? LOW); reflexivity.
Qed.

Lemma unlocked_state_globals (cfg : Config) (i : Inputs) (s : Sketch) :
  globals (unlocked_state cfg i s) = globals s.
Proof. now rewrite unlocked_state_eq. Qed.

Lemma unlocked_state_outputs (cfg : Config) (i : Inputs) (s : Sketch) :
  outputs (unlocked_state cfg i s) =
  (maxBreathBrightness cfg, heater_level cfg, heater_level cfg,
   motorPWM (pot i), HIGH, LOW).
Proof. now rewrite unlocked_state_eq. Qed.

Lemma unlocked_state_actuation (cfg : Config) (i : Inputs) (s : Sketch) :
  armed_actuation cfg i (unlocked_state cfg i s).
Proof.
  rewrite unlocked_state_eq. unfold armed_actuation. fields. repeat split.
Qed.

Lemma run_unlocked (cfg : Config) (ins : list Inputs) (s : Sketch) :
  systemReady s = true -> globals (run cfg ins s) = globals s.
Proof.
  revert s. induction ins as [|i ins IH]; intros s H; simpl; [reflexivity|].
  assert (E : globals (loop cfg i s) = globals s).
  { rewrite loop_unlocked by exact H. apply unlocked_state_globals. }
  rewrite IH, E; [reflexivity|].
  unfold globals in E. injection E as E1 _ _ _. congruence.
Qed.

Lemma loop_stays_ready (cfg : Config) (s : Sketch) :
  systemReady s = true -> forall i, systemReady (loop cfg i s) = true.
Proof.
  intros H i. pose proof (run_unlocked cfg [i] s H) as E.
  unfold globals in E. injection E as E _ _ _. simpl in E. congruence.
Qed.

(** ** The arming interlock *)

(** The scenario of the specification, pass by pass from [setup()]. *)
Example scenario :
  let s1 := loop heplast pot_up_pass boot in
  let s2 := loop heplast pot_zero_pass s1 in
  let s3 := loop heplast arming_pass s2 in
  let s4 := loop heplast full_speed_pass s3 in
  (systemReady s1 = false /\ motor_enb s1 = 0 /\
   hd_error (skipn 5 (trace s1)) = Some (LcdPrint 1 "Set pot to zero  ")) /\
  (systemReady s2 = false /\
   hd_error (skipn 5 (trace s2)) = Some (LcdPrint 1 "Press Button...  ")) /\
  (systemReady s3 = true /\ led_ready s3 = 50 /\ motor_enb s3 = 0) /\
  (motor_enb s4 = 255 /\ motor_in3 s4 = HIGH /\ motor_in4 s4 = LOW /\
   relay_pin s4 = LOW /\ heater_led s4 = LOW).
Proof. vm_compute. intuition reflexivity. Qed.

(** C1 (interlock soundness).  A pass entered with [systemReady] false
    ends with motor duty 0, both direction lines low, heater relay off and
    heater LED off, whatever the pot, button and clock readings are, and
    none of the writes it performs puts a non-zero level on one of those
    pins.  The pass that arms is no exception. *)
Theorem interlock_soundness (cfg : Config) (i : Inputs) (s : Sketch) :
  systemReady s = false ->
  actuators_off (loop cfg i s) /\
  exists evs, trace (loop cfg i s) = evs ++ trace s /\
              forallb harmless evs = true.
Proof.
  intros H. rewrite loop_locked by exact H. split.
  - apply locked_state_off.
  - apply locked_state_trace.
Qed.

Lemma interlock_soundness_witness :
  systemReady boot = false /\
  actuators_off (loop heplast arming_pass boot) /\
  exists evs, trace (loop heplast arming_pass boot) = evs ++ trace boot /\
              forallb harmless evs = true.
Proof.
  split; [reflexivity|].
  apply (interlock_soundness heplast arming_pass boot). reflexivity.
Defined.

(** C2 (arm-condition exactness).  A pass entered with [systemReady] false
    leaves it true exactly when that pass reads the pot strictly below
    [potZeroThreshold] and the button LOW; and as long as the pot is not
    below the threshold the sketch stays locked, for any number of passes
    and any button readings. *)
Theorem arm_condition_exact (cfg : Config) (s : Sketch) :
  systemReady s = false ->
  (forall i, systemReady (loop cfg i s) = true <->
             pot i < potZeroThreshold cfg /\ button i = LOW) /\
  (forall ins, Forall (fun i => potZeroThreshold cfg <= pot i) ins ->
               systemReady (run cfg ins s) = false).
Proof.
  intros H. split.
  - intros i. rewrite loop_locked, locked_state_ready by exact H.
    unfold arm_condition.
    rewrite andb_true_iff, Z.ltb_lt, Z.eqb_eq. reflexivity.
  - intros ins. revert s H.
    induction ins as [|i ins IH]; intros s H Hall; simpl; [exact H|].
    inversion Hall as [|? ? Hi Hins]; subst.
    apply IH; [|exact Hins].
    rewrite loop_locked, locked_state_ready by exact H.
    unfold arm_condition.
    apply andb_false_intro1. apply Z.ltb_ge. exact Hi.
Qed.

Lemma arm_condition_exact_witness :
  systemReady boot = false /\
  (systemReady (loop heplast arming_pass boot) = true <->
   pot arming_pass < potZeroThreshold heplast /\ button arming_pass = LOW) /\
  systemReady
    (run heplast [held_button_pass; held_button_pass; held_button_pass] boot)
  = false.
Proof.
  split; [reflexivity|].
  destruct (arm_condition_exact heplast boot eq_refl) as [Hiff Hstay].
  split; [apply Hiff|].
  apply Hstay. repeat constructor; discriminate.
Defined.

(** C4 (no disarm).  Once [systemReady] is true it is true after every
    further pass, whatever the pot, button and clock readings are. *)
Theorem no_disarm (cfg : Config) (s : Sketch) :
  systemReady s = true ->
  (forall i, systemReady (loop cfg i s) = true) /\
  (forall ins, systemReady (run cfg ins s) = true).
Proof.
  intros H.
  assert (R : forall ins, systemReady (run cfg ins s) = true).
  { intros ins. pose proof (run_unlocked cfg ins s H) as E.
    unfold globals in E. injection E as E _ _ _. congruence. }
  split; [|exact R].
  intros i. exact (R [i]).
Qed.

Lemma no_disarm_witness :
  systemReady (loop heplast arming_pass boot) = true /\
  (forall i, systemReady (loop heplast i (loop heplast arming_pass boot)) = true) /\
  (forall ins,
      systemReady (run heplast ins (loop heplast arming_pass boot)) = true).
Proof.
  split; [reflexivity|].
  apply (no_disarm heplast (loop heplast arming_pass boot)). reflexivity.
Defined.

(** C10 (unlocked passes are stateless).  A pass entered with
    [systemReady] true leaves [systemReady], [fadeValue], [fadeAmount] and
    [prevFadeMillis] as they were, over any number of passes, and what it
    writes and leaves on the pins is a function of that pass's inputs
    alone. *)
Theorem unlocked_pass_stateless (cfg : Config) (i : Inputs) (s : Sketch) :
  systemReady s = true ->
  globals (loop cfg i s) = globals s /\
  (forall ins, globals (run cfg ins s) = globals s) /\
  trace (loop cfg i s) = unlocked_writes cfg i ++ trace s /\
  (forall s', systemReady s' = true ->
              outputs (loop cfg i s') = outputs (loop cfg i s)).
Proof.
  intros H. split; [|split; [|split]].
  - rewrite loop_unlocked by exact H. apply unlocked_state_globals.
  - intros ins. apply run_unlocked, H.
  - rewrite loop_unlocked by exact H. now rewrite unlocked_state_eq.
  - intros s' H'. rewrite (loop_unlocked cfg i s' H'), (loop_unlocked cfg i s H).
    now rewrite !unlocked_state_outputs.
Qed.

Lemma unlocked_pass_stateless_witness :
  systemReady armed_mid_fade = true /\
  globals (loop heplast full_speed_pass armed_mid_fade)
  = (true, 24, -2, 960) /\
  (forall ins, globals (run heplast ins armed_mid_fade) = (true, 24, -2, 960)) /\
  trace (loop heplast full_speed_pass armed_mid_fade)
  = unlocked_writes heplast full_speed_pass ++ [] /\
  (forall s', systemReady s' = true ->
              outputs (loop heplast full_speed_pass s')
              = outputs (loop heplast full_speed_pass armed_mid_fade)).
Proof.
  split; [reflexivity|].
  apply (unlocked_pass_stateless heplast full_speed_pass armed_mid_fade).
  reflexivity.
Defined.

(** C3, refuted as stated: the pass that arms from [boot] with the pot at
    10 leaves the motor duty at 0 and IN3 low, where the unlocked branch
    would have written duty [motorPWM 10 = 2] and IN3 high. *)
Lemma transition_pass_not_armed_actuation :
  systemReady boot = false /\
  systemReady (loop heplast arming_pass boot) = true /\
  motorPWM (pot arming_pass) = 2 /\
  motor_enb (loop heplast arming_pass boot) = 0 /\
  motor_in3 (loop heplast arming_pass boot) = LOW /\
  ~ armed_actuation heplast arming_pass (loop heplast arming_pass boot).
Proof.
  split; [reflexivity|]. split; [vm_compute; reflexivity|].
  split; [vm_compute; reflexivity|]. split; [vm_compute; reflexivity|].
  split; [vm_compute; reflexivity|].
  intros [E _]. vm_compute in E. discriminate E.
Qed.

(** C3, as the code has it.  On the pass that arms, "Ensure everything is
    OFF" still runs after the transition: the pass ends with [systemReady]
    true, the status LED at [maxBreathBrightness], motor duty 0, both
    direction lines low, relay and heater LED off.  The levels of the
    unlocked branch (duty [motorPWM], IN3 high, IN4 low, heater by the
    temperature test) are on the pins after the next pass. *)
Theorem transition_pass_outputs (cfg : Config) (i : Inputs) (s : Sketch) :
  systemReady s = false ->
  pot i < potZeroThreshold cfg ->
  button i = LOW ->
  systemReady (loop cfg i s) = true /\
  led_ready (loop cfg i s) = maxBreathBrightness cfg /\
  actuators_off (loop cfg i s) /\
  (forall j, armed_actuation cfg j (loop cfg j (loop cfg i s))).
Proof.
  intros H Hp Hb.
  assert (R : systemReady (loop cfg i s) = true).
  { rewrite loop_locked, locked_state_ready by exact H.
    unfold arm_condition. apply andb_true_intro.
    now rewrite Z.ltb_lt, Z.eqb_eq. }
  split; [exact R|]. split; [|split].
  - rewrite loop_locked, locked_state_led by exact H.
    unfold arm_condition.
    apply Z.ltb_lt in Hp. apply Z.eqb_eq in Hb. now rewrite Hp, Hb.
  - rewrite loop_locked by exact H. apply locked_state_off.
  - intros j. rewrite (loop_unlocked cfg j _ R).
    apply unlocked_state_actuation.
Qed.

Lemma transition_pass_outputs_witness :
  systemReady boot = false /\
  pot arming_pass < potZeroThreshold heplast /\
  button arming_pass = LOW /\
  systemReady (loop heplast arming_pass boot) = true /\
  led_ready (loop heplast arming_pass boot) = maxBreathBrightness heplast /\
  actuators_off (loop heplast arming_pass boot) /\
  (forall j, armed_actuation heplast j
               (loop heplast j (loop heplast arming_pass boot))).
Proof.
  split; [reflexivity|]. split; [reflexivity|]. split; [reflexivity|].
  apply (transition_pass_outputs heplast arming_pass boot); reflexivity.
Defined.

(** ** The heater *)

Lemma heater_level_cases (cfg : Config) :
  (heater_level cfg = HIGH <->
   AVR.flt (roomTempMock cfg) (targetTemp cfg) = true) /\
  (heater_level cfg = LOW <->
   AVR.flt (roomTempMock cfg) (targetTemp cfg) = false).
Proof.
  unfold heater_level, HIGH, LOW.
  destruct (AVR.flt _ _); split; split; intros E;
    try reflexivity; discriminate E.
Qed.

Lemma unlocked_heater (cfg : Config) (i : Inputs) (s : Sketch) :
  systemReady s = true ->
  relay_pin (loop cfg i s) = heater_level cfg /\
  heater_led (loop cfg i s) = heater_level cfg.
Proof.
  intros H. rewrite loop_unlocked by exact H.
  destruct (unlocked_state_actuation cfg i s) as (_ & _ & _ & E1 & E2).
  now split.
Qed.

Example cold_room_heats :
  outputs (loop cold_room full_speed_pass armed_mid_fade)
  = (50, HIGH, HIGH, 255, HIGH, LOW).
Proof. vm_compute. reflexivity. Qed.

(** C7 (heater decision).  After a pass entered with [systemReady] true the
    relay and the heater LED are both HIGH exactly when
    [roomTempMock < targetTemp] and both LOW exactly when not; running the
    pass again on the same inputs leaves the same levels on every pin;
    and with the built-in 27.0 and 20.0 both are LOW. *)
Theorem heater_decision (cfg : Config) (i : Inputs) (s : Sketch) :
  systemReady s = true ->
  (relay_pin (loop cfg i s) = HIGH /\ heater_led (loop cfg i s) = HIGH <->
   AVR.flt (roomTempMock cfg) (targetTemp cfg) = true) /\
  (relay_pin (loop cfg i s) = LOW /\ heater_led (loop cfg i s) = LOW <->
   AVR.flt (roomTempMock cfg) (targetTemp cfg) = false) /\
  outputs (loop cfg i (loop cfg i s)) = outputs (loop cfg i s) /\
  (Qeq (AVR.Q_of_float (roomTempMock heplast)) (27 # 1) /\
   Qeq (AVR.Q_of_float (targetTemp heplast)) (20 # 1) /\
   relay_pin (loop heplast i s) = LOW /\
   heater_led (loop heplast i s) = LOW).
Proof.
  intros H.
  destruct (unlocked_heater cfg i s H) as [E1 E2].
  destruct (heater_level_cases cfg) as [Hhigh Hlow].
  split; [|split; [|split]].
  - rewrite E1, E2, <- Hhigh. tauto.
  - rewrite E1, E2, <- Hlow. tauto.
  - rewrite (loop_unlocked cfg i _ (loop_stays_ready cfg s H i)).
    rewrite (loop_unlocked cfg i s H).
    now rewrite !unlocked_state_outputs.
  - split; [vm_compute; reflexivity|].
    split; [vm_compute; reflexivity|].
    exact (unlocked_heater heplast i s H).
Qed.

Lemma heater_decision_witness :
  systemReady armed_mid_fade = true /\
  (relay_pin (loop heplast full_speed_pass armed_mid_fade) = HIGH /\
   heater_led (loop heplast full_speed_pass armed_mid_fade) = HIGH <->
   AVR.flt (roomTempMock heplast) (targetTemp heplast) = true) /\
  (relay_pin (loop heplast full_speed_pass armed_mid_fade) = LOW /\
   heater_led (loop heplast full_speed_pass armed_mid_fade) = LOW <->
   AVR.flt (roomTempMock heplast) (targetTemp heplast) = false) /\
  outputs (loop heplast full_speed_pass
             (loop heplast full_speed_pass armed_mid_fade))
  = outputs (loop heplast full_speed_pass armed_mid_fade) /\
  (Qeq (AVR.Q_of_float (roomTempMock heplast)) (27 # 1) /\
   Qeq (AVR.Q_of_float (targetTemp heplast)) (20 # 1) /\
   relay_pin (loop heplast full_speed_pass armed_mid_fade) = LOW /\
   heater_led (loop heplast full_speed_pass armed_mid_fade) = LOW).
Proof.
  split; [reflexivity|].
  apply (heater_decision heplast full_speed_pass armed_mid_fade).
  reflexivity.
Defined.

(** ** The input sampler *)

Lemma long_small (x : Z) : - 2 ^ 31 <= x < 2 ^ 31 -> AVR.long x = x.
Proof.
  intros H. unfold AVR.long, AVR.wrap_signed.
  change (2 ^ (32 - 1)) with (2 ^ 31) in *.
  rewrite Z.mod_small; lia.
Qed.

Lemma int_small (x : Z) : AVR.in_int x -> AVR.int x = x.
Proof.
  unfold AVR.in_int, AVR.INT_MIN, AVR.INT_MAX.
  intros H. unfold AVR.int, AVR.wrap_signed.
  change (2 ^ (16 - 1)) with (2 ^ 15) in *.
  rewrite Z.mod_small; lia.
Qed.

Lemma rescale_bounds (v hi : Z) :
  0 <= v <= 1023 -> 0 <= hi -> 0 <= v * hi / 1023 <= hi.
Proof.
  intros Hv Hhi.
  assert (P : 0 <= v * hi <= 1023 * hi).
  { split; [apply Z.mul_nonneg_nonneg; lia|].
    apply Z.mul_le_mono_nonneg_r; lia. }
  split.
  - apply Z.div_pos; lia.
  - apply Z.div_le_upper_bound; lia.
Qed.

Lemma map_in_range (v hi : Z) :
  0 <= v <= 1023 -> 0 <= hi <= 1023 ->
  map v 0 1023 0 hi = v * hi / 1023.
Proof.
  intros Hv Hhi. unfold map.
  assert (P : 0 <= v * hi <= 1023 * 1023).
  { split; [apply Z.mul_nonneg_nonneg; lia|].
    apply Z.mul_le_mono_nonneg; lia. }
  pose proof (rescale_bounds v hi Hv (proj1 Hhi)) as B.
  rewrite !Z.sub_0_r, Z.add_0_r.
  rewrite (long_small v), (long_small hi), (long_small 1023) by lia.
  rewrite (long_small (v * hi)) by lia.
  rewrite Z.quot_div_nonneg by lia.
  rewrite (long_small (v * hi / 1023)) by lia.
  apply long_small. lia.
Qed.

Lemma motorPWM_in_range (v : Z) :
  0 <= v <= 1023 -> motorPWM v = v * 255 / 1023.
Proof.
  intros Hv. unfold motorPWM. rewrite map_in_range by lia.
  apply int_small. pose proof (rescale_bounds v 255 Hv).
  unfold AVR.in_int, AVR.INT_MIN, AVR.INT_MAX. lia.
Qed.

Lemma rpmCenti_in_range (v : Z) :
  0 <= v <= 1023 -> rpmCenti v = v * 300 / 1023.
Proof. intros Hv. unfold rpmCenti. apply map_in_range; lia. Qed.

Lemma rescale_mono (v1 v2 hi : Z) :
  0 <= hi -> v1 <= v2 -> v1 * hi / 1023 <= v2 * hi / 1023.
Proof.
  intros Hhi Hv. apply Z.div_le_mono; [lia|].
  apply Z.mul_le_mono_nonneg_r; lia.
Qed.

Lemma upto_In (n : nat) (z : Z) : 0 <= z <= Z.of_nat n -> In z (upto n).
Proof.
  intros H. unfold upto. apply in_map_iff.
  exists (Z.to_nat z). split; [lia|].
  apply in_seq. lia.
Qed.

Lemma forallb_upto (n : nat) (f : Z -> bool) (z : Z) :
  forallb f (upto n) = true -> 0 <= z <= Z.of_nat n -> f z = true.
Proof.
  intros Hall Hz. rewrite forallb_forall in Hall.
  apply Hall, upto_In, Hz.
Qed.

Lemma hundredths_in_range (n : Z) :
  0 <= n <= 300 -> speed_in_range (hundredths n) = true.
Proof.
  apply (forallb_upto 300 (fun k => speed_in_range (hundredths k))).
  vm_compute. reflexivity.
Qed.

Lemma hundredths_rounds (n : Z) :
  0 <= n <= 300 -> rounds_hundredths n (hundredths n) = true.
Proof.
  apply (forallb_upto 300 (fun k => rounds_hundredths k (hundredths k))).
  vm_compute. reflexivity.
Qed.

Lemma hundredths_sorted_spec (n : nat) (n1 n2 : Z) :
  hundredths_sorted n = true ->
  0 <= n1 -> n1 <= n2 -> n2 <= Z.of_nat n ->
  AVR.fle (hundredths n1) (hundredths n2) = true /\
  (AVR.Q_of_float (hundredths n1) <= AVR.Q_of_float (hundredths n2))%Q.
Proof.
  intros S H0 H12 H2.
  rewrite <- Qle_bool_iff, <- andb_true_iff.
  unfold hundredths_sorted, pairs_sorted in S.
  assert (I : forall k, 0 <= k <= Z.of_nat n ->
                In (k, hundredths k) (hundredths_table n)).
  { intros k Hk. apply in_map_iff. exists k.
    split; [reflexivity|apply upto_In; lia]. }
  pose proof (proj1 (forallb_forall _ _) S _ (I n1 ltac:(lia))) as S1.
  cbv beta in S1.
  pose proof (proj1 (forallb_forall _ _) S1 _ (I n2 ltac:(lia))) as S2.
  cbn [fst snd] in S2.
  rewrite (proj2 (Z.leb_le _ _) H12) in S2. exact S2.
Qed.

Lemma hundredths_mono (n1 n2 : Z) :
  0 <= n1 -> n1 <= n2 -> n2 <= 300 ->
  AVR.fle (hundredths n1) (hundredths n2) = true /\
  (AVR.Q_of_float (hundredths n1) <= AVR.Q_of_float (hundredths n2))%Q.
Proof.
  apply (hundredths_sorted_spec 300). vm_compute. reflexivity.
Qed.

Lemma rpmTarget_eq (v : Z) : rpmTarget v = hundredths (rpmCenti v).
Proof. unfold rpmTarget, hundredths. reflexivity. Qed.

Lemma exact_targetSpeed_eq (v : Z) :
  (exact_targetSpeed v == (v * 300 # 102300))%Q.
Proof.
  unfold exact_targetSpeed, exact_map.
  rewrite (Qmake_Qdiv (v * 300) 102300), inject_Z_mult.
  change (inject_Z 300) with (300 # 1)%Q.
  change (inject_Z (Z.pos 102300)) with (102300 # 1)%Q.
  field.
Qed.

(** C5, refuted as stated: the sketch maps the reading as it is.  The
    [int] 2000 gives duty 498 and a target speed above 3.0, the [int] -5
    gives duty -1; clamping to 1023 and to 0 would have given 255 and 0. *)
Lemma unclamped_out_of_range :
  AVR.in_int 2000 /\ motorPWM 2000 = 498 /\ motorPWM 1023 = 255 /\
  speed_in_range (rpmTarget 2000) = false /\
  AVR.in_int (-5) /\ motorPWM (-5) = -1 /\ motorPWM 0 = 0 /\
  ~ derived_in_range 2000 /\ ~ derived_in_range (-5).
Proof.
  unfold AVR.in_int, AVR.INT_MIN, AVR.INT_MAX.
  repeat split; try reflexivity; try lia.
  - intros [[_ H] _]. vm_compute in H. apply H. reflexivity.
  - intros [[H _] _]. vm_compute in H. apply H. reflexivity.
Qed.

(** C5, as the code has it.  For a raw reading within [0, 1023], which is
    all [analogRead] yields, the duty lies in [0, 255], the target speed
    in hundredths in [0, 300] and the target speed in [0, 3.0].  The
    sketch does not clamp. *)
Theorem derived_ranges (v : Z) :
  0 <= v <= 1023 ->
  0 <= motorPWM v <= 255 /\
  0 <= rpmCenti v <= 300 /\
  speed_in_range (rpmTarget v) = true.
Proof.
  intros Hv.
  assert (C : 0 <= rpmCenti v <= 300)
    by (rewrite rpmCenti_in_range by exact Hv; apply rescale_bounds; lia).
  repeat split; try apply C.
  - rewrite motorPWM_in_range by exact Hv. apply rescale_bounds; lia.
  - rewrite motorPWM_in_range by exact Hv. apply rescale_bounds; lia.
  - rewrite rpmTarget_eq. exact (hundredths_in_range (rpmCenti v) C).
Qed.

Lemma derived_ranges_witness :
  0 <= 1023 <= 1023 /\
  0 <= motorPWM 1023 <= 255 /\
  0 <= rpmCenti 1023 <= 300 /\
  speed_in_range (rpmTarget 1023) = true.
Proof.
  split; [lia|]. apply (derived_ranges 1023). lia.
Defined.

(** C8, refuted as stated: the speed channel goes through the same
    integer [map] as the duty channel.  At raw value 1 the sketch computes
    0 hundredths and the float +0, where the exact rescale is 1/341; at
    1022 it computes 2.99, where the exact rescale is above 2.997. *)
Lemma speed_rescale_truncates :
  0 <= 1 <= 1023 /\
  rpmCenti 1 = 0 /\
  rpmTarget 1 = S754_zero false /\
  (exact_targetSpeed 1 == 1 # 341)%Q /\
  ~ (AVR.Q_of_float (rpmTarget 1) == exact_targetSpeed 1)%Q /\
  rpmCenti 1022 = 299 /\
  (AVR.Q_of_float (rpmTarget 1022) < 2991 # 1000)%Q /\
  (2997 # 1000 < exact_targetSpeed 1022)%Q.
Proof.
  repeat split; try reflexivity; try lia.
  intros H. vm_compute in H. discriminate H.
Qed.

(** C8, as the code has it.  For a raw reading [v] within [0, 1023] the
    duty is [v * 255 / 1023] and the target speed in hundredths is
    [v * 300 / 1023], both with the division truncated; the hundredths
    are at most the exact rescale and less than one below it; the target
    speed is that integer divided by 100 in [float], within relative
    error [2^-24] of the quotient. *)
Theorem sampler_formulas (v : Z) :
  0 <= v <= 1023 ->
  motorPWM v = Z.quot (v * 255) 1023 /\
  rpmCenti v = Z.quot (v * 300) 1023 /\
  (rpmCenti v # 100 <= exact_targetSpeed v)%Q /\
  (exact_targetSpeed v < rpmCenti v + 1 # 100)%Q /\
  rpmTarget v = hundredths (Z.quot (v * 300) 1023) /\
  rounds_hundredths (Z.quot (v * 300) 1023) (rpmTarget v) = true.
Proof.
  intros Hv.
  assert (Q255 : Z.quot (v * 255) 1023 = v * 255 / 1023)
    by (apply Z.quot_div_nonneg; lia).
  assert (Q300 : Z.quot (v * 300) 1023 = v * 300 / 1023)
    by (apply Z.quot_div_nonneg; lia).
  assert (C : rpmCenti v = v * 300 / 1023) by (apply rpmCenti_in_range, Hv).
  pose proof (rescale_bounds v 300 Hv ltac:(lia)) as B.
  rewrite Q255, Q300.
  split; [apply motorPWM_in_range, Hv|].
  split; [exact C|].
  split; [|split; [|split]].
  - rewrite exact_targetSpeed_eq, C. unfold Qle. cbn [Qnum Qden].
    pose proof (Z.mul_div_le (v * 300) 1023 ltac:(lia)). lia.
  - rewrite exact_targetSpeed_eq, C. unfold Qlt. cbn [Qnum Qden].
    pose proof (Z.mul_succ_div_gt (v * 300) 1023 ltac:(lia)). lia.
  - rewrite rpmTarget_eq, C. reflexivity.
  - rewrite rpmTarget_eq, C. exact (hundredths_rounds _ B).
Qed.

Lemma sampler_formulas_witness :
  0 <= 1022 <= 1023 /\
  motorPWM 1022 = 254 /\
  rpmCenti 1022 = 299 /\
  (rpmCenti 1022 # 100 <= exact_targetSpeed 1022)%Q /\
  (exact_targetSpeed 1022 < rpmCenti 1022 + 1 # 100)%Q /\
  rpmTarget 1022 = hundredths 299 /\
  rounds_hundredths 299 (rpmTarget 1022) = true.
Proof.
  split; [lia|]. apply (sampler_formulas 1022). lia.
Defined.

(** C9 (monotonicity).  For raw readings [v1 < v2] within [0, 1023] the
    duty, the target speed in hundredths and the target speed as a
    [float] are each no larger at [v1] than at [v2]. *)
Theorem sampler_monotone (v1 v2 : Z) :
  0 <= v1 -> v1 < v2 -> v2 <= 1023 ->
  motorPWM v1 <= motorPWM v2 /\
  rpmCenti v1 <= rpmCenti v2 /\
  AVR.fle (rpmTarget v1) (rpmTarget v2) = true /\
  (AVR.Q_of_float (rpmTarget v1) <= AVR.Q_of_float (rpmTarget v2))%Q.
Proof.
  intros H0 H12 H2.
  assert (C : rpmCenti v1 <= rpmCenti v2).
  { rewrite !rpmCenti_in_range by lia. apply rescale_mono; lia. }
  split; [|split; [exact C|]].
  - rewrite !motorPWM_in_range by lia. apply rescale_mono; lia.
  - rewrite !rpmTarget_eq.
    assert (B1 : 0 <= rpmCenti v1)
      by (rewrite rpmCenti_in_range by lia; apply rescale_bounds; lia).
    assert (B2 : rpmCenti v2 <= 300)
      by (rewrite rpmCenti_in_range by lia; apply rescale_bounds; lia).
    exact (hundredths_mono (rpmCenti v1) (rpmCenti v2) B1 C B2).
Qed.

Lemma sampler_monotone_witness :
  0 <= 511 /\ 511 < 512 /\ 512 <= 1023 /\
  motorPWM 511 <= motorPWM 512 /\
  rpmCenti 511 <= rpmCenti 512 /\
  AVR.fle (rpmTarget 511) (rpmTarget 512) = true /\
  (AVR.Q_of_float (rpmTarget 511) <= AVR.Q_of_float (rpmTarget 512))%Q.
Proof.
  split; [lia|]. split; [lia|]. split; [lia|].
  apply (sampler_monotone 511 512); lia.
Defined.

(** ** The fade, pass after pass *)

Lemma phase_succ (n : nat) :
  Z.of_nat (S n) mod 50 =
  if Z.of_nat n mod 50 =? 49 then 0 else Z.of_nat n mod 50 + 1.
Proof.
  rewrite Nat2Z.inj_succ.
  destruct (Z.eqb_spec (Z.of_nat n mod 50) 49) as [E|E];
    Z.div_mod_to_equations; lia.
Qed.

Lemma triangle_bounds (n : nat) : 0 <= triangle n <= 50.
Proof.
  unfold triangle. cbv zeta.
  pose proof (Z.mod_pos_bound (Z.of_nat n) 50 ltac:(lia)) as B.
  destruct (Z.leb_spec (Z.of_nat n mod 50) 25); lia.
Qed.

Lemma triangle_succ (n : nat) :
  triangle (S n) = triangle n + slope n /\
  slope (S n) =
  (if (triangle (S n) <=? 0) || (triangle (S n) >=? 50)
   then - slope n else slope n).
Proof.
  unfold triangle, slope. cbv zeta. rewrite phase_succ.
  pose proof (Z.mod_pos_bound (Z.of_nat n) 50 ltac:(lia)) as B.
  set (k := Z.of_nat n mod 50) in *.
  destruct (Z.eqb_spec k 49) as [E|E].
  - rewrite E. split; reflexivity.
  - destruct (Z.leb_spec (k + 1) 25), (Z.leb_spec k 25),
      (Z.ltb_spec (k + 1) 25), (Z.ltb_spec k 25); try lia;
      (split; [lia|]);
      match goal with
      | |- context [(?a <=? 0) || (?b >=? 50)] =>
          destruct (Z.leb_spec a 0), (Z.geb_spec b 50); cbn [orb]; lia
      end.
Qed.

Lemma breathe_phase (n : nat) (now : Z) (s : Sketch) :
  at_phase n s -> at_phase (S n) (breathe heplast now s).
Proof.
  intros (Hv & Ha & Hl).
  destruct (triangle_succ n) as [T Sl].
  pose proof (triangle_bounds (S n)) as B.
  assert (I : AVR.int (fadeValue s + fadeAmount s) = triangle (S n)).
  { rewrite Hv, Ha, <- T. apply int_small.
    unfold AVR.in_int, AVR.INT_MIN, AVR.INT_MAX. lia. }
  rewrite breathe_eq. cbv zeta. unfold at_phase. fields.
  rewrite I. split; [reflexivity|]. split; [|exact B].
  rewrite Sl. change (maxBreathBrightness heplast) with 50.
  destruct ((triangle (S n) <=? 0) || (triangle (S n) >=? 50));
    [|exact Ha].
  rewrite Ha. apply int_small.
  unfold AVR.in_int, AVR.INT_MIN, AVR.INT_MAX, slope.
  destruct (_ <? _); lia.
Qed.

Lemma loop_phase (n : nat) (i : Inputs) (s : Sketch) :
  at_phase n s ->
  at_phase
    ((if negb (systemReady s) && fade_due heplast i s then 1 else 0) + n)
    (loop heplast i s).
Proof.
  intros P. destruct (systemReady s) eqn:R.
  - rewrite (loop_unlocked heplast i s R), unlocked_state_eq.
    destruct P as (Hv & Ha & Hl). unfold at_phase. fields.
    cbn [negb andb Nat.add].
    split; [exact Hv|]. split; [exact Ha|].
    change (maxBreathBrightness heplast) with 50. lia.
  - rewrite (loop_locked heplast i s R).
    destruct (locked_state_fade heplast i s) as (Ev & Ea & _).
    unfold at_phase. rewrite Ev, Ea, locked_state_led, fade_timer_eq.
    cbn [negb andb].
    assert (Q : at_phase
                  ((if fade_due heplast i s then 1 else 0) + n)
                  (if fade_due heplast i s
                   then breathe heplast (millis_stamp i) s else s)).
    { destruct (fade_due heplast i s); [|exact P].
      apply breathe_phase, P. }
    destruct Q as (Hv & Ha & Hl).
    split; [exact Hv|]. split; [exact Ha|].
    destruct (arm_condition heplast i); [|exact Hl].
    change (maxBreathBrightness heplast) with 50. lia.
Qed.

Lemma run_phase (ins : list Inputs) (n : nat) (s : Sketch) :
  at_phase n s ->
  at_phase (fade_updates heplast ins s + n) (run heplast ins s).
Proof.
  revert n s. induction ins as [|i ins IH]; intros n s P; [exact P|].
  cbn [fade_updates run].
  match goal with
  | |- at_phase (?a + ?b + n)%nat _ =>
      replace (a + b + n)%nat with (b + (a + n))%nat by lia
  end.
  apply IH, loop_phase, P.
Qed.

Lemma boot_phase : at_phase 0 boot.
Proof. unfold at_phase. vm_compute. intuition discriminate. Qed.

(** C6 (breathing triangle wave).  From [setup()] on, with brightness 0
    and step +2, the sketch as built keeps [fadeValue] on the wave
    0, 2, ..., 50, 48, ..., 0, ... with [fadeAmount] its slope, so
    [fadeValue] and the status LED stay within [0, maxBreathBrightness];
    each fade update adds the step, writes the new brightness to the LED
    and negates the step exactly when the new brightness is 0 or
    [maxBreathBrightness]. *)
Theorem breathing_triangle_wave (ins : list Inputs) (now : Z) :
  let s := run heplast ins boot in
  let n := fade_updates heplast ins boot in
  (fadeValue s = triangle n /\ fadeAmount s = slope n) /\
  0 <= fadeValue s <= maxBreathBrightness heplast /\
  0 <= led_ready s <= maxBreathBrightness heplast /\
  fadeValue (breathe heplast now s) = fadeValue s + fadeAmount s /\
  0 <= fadeValue (breathe heplast now s) <= maxBreathBrightness heplast /\
  led_ready (breathe heplast now s) = fadeValue (breathe heplast now s) /\
  fadeAmount (breathe heplast now s) =
  (if (fadeValue (breathe heplast now s) =? 0) ||
      (fadeValue (breathe heplast now s) =? maxBreathBrightness heplast)
   then - fadeAmount s else fadeAmount s).
Proof.
  intros s n.
  assert (P : at_phase n s).
  { pose proof (run_phase ins 0 boot boot_phase) as P.
    rewrite Nat.add_0_r in P. exact P. }
  pose proof (breathe_phase n now s P) as P'.
  destruct P as (Hv & Ha & Hl). destruct P' as (Hv' & Ha' & Hl').
  destruct (triangle_succ n) as [T Sl].
  pose proof (triangle_bounds n) as B.
  pose proof (triangle_bounds (S n)) as B'.
  change (maxBreathBrightness heplast) with 50.
  rewrite Hv', Ha', Hv, Ha.
  split; [split; reflexivity|].
  split; [exact B|]. split; [exact Hl|]. split; [exact T|].
  split; [exact B'|].
  split.
  - rewrite breathe_eq. cbv zeta. fields.
    pose proof (breathe_phase n now s (conj Hv (conj Ha Hl))) as (E & _).
    rewrite breathe_eq in E. cbv zeta in E. fields. exact E.
  - rewrite Sl.
    destruct (Z.leb_spec (triangle (S n)) 0), (Z.geb_spec (triangle (S n)) 50),
      (Z.eqb_spec (triangle (S n)) 0), (Z.eqb_spec (triangle (S n)) 50);
      cbn [orb]; try reflexivity; lia.
Qed.

(** ** Runs: what every reached state satisfies *)

Lemma fade_timer_record (cfg : Config) (i : Inputs) (s : Sketch) :
  fade_timer cfg i s =
  {| systemReady := systemReady s;
     fadeValue := if fade_due cfg i s then next_fadeValue s else fadeValue s;
     fadeAmount :=
       if fade_due cfg i s
       then (if (next_fadeValue s <=? 0) ||
                (next_fadeValue s >=? maxBreathBrightness cfg)
             then AVR.int (- fadeAmount s) else fadeAmount s)
       else fadeAmount s;
     prevFadeMillis :=
       if fade_due cfg i s then AVR.ulong (millis_stamp i)
       else prevFadeMillis s;
     led_ready := if fade_due cfg i s then next_fadeValue s else led_ready s;
     heater_led := heater_led s; relay_pin := relay_pin s;
     motor_enb := motor_enb s; motor_in3 := motor_in3 s;
     motor_in4 := motor_in4 s;
     trace := fade_writes cfg i s ++ trace s |}.
Proof.
  rewrite fade_timer_eq. unfold fade_writes, next_fadeValue.
  destruct (fade_due cfg i s).
  - rewrite breathe_eq. reflexivity.
  - destruct s. reflexivity.
Qed.

Lemma locked_state_record (cfg : Config) (i : Inputs) (s : Sketch) :
  locked_state cfg i s =
  {| systemReady := if arm_condition cfg i then true else systemReady s;
     fadeValue := if fade_due cfg i s then next_fadeValue s else fadeValue s;
     fadeAmount :=
       if fade_due cfg i s
       then (if (next_fadeValue s <=? 0) ||
                (next_fadeValue s >=? maxBreathBrightness cfg)
             then AVR.int (- fadeAmount s) else fadeAmount s)
       else fadeAmount s;
     prevFadeMillis :=
       if fade_due cfg i s then AVR.ulong (millis_stamp i)
       else prevFadeMillis s;
     led_ready :=
       if arm_condition cfg i then maxBreathBrightness cfg
       else if fade_due cfg i s then next_fadeValue s else led_ready s;
     heater_led := LOW; relay_pin := LOW;
     motor_enb := 0; motor_in3 := LOW; motor_in4 := LOW;
     trace := off_writes ++ arm_writes cfg i ++ fade_writes cfg i s
              ++ trace s |}.
Proof.
  rewrite locked_state_eq, all_off_eq, arm_test_eq, fade_timer_record.
  reflexivity.
Qed.

Lemma run_invariant (cfg : Config) (ok : Inputs -> Prop) (P : Sketch -> Prop) :
  (forall i s, ok i -> P s -> P (loop cfg i s)) ->
  forall ins s, Forall ok ins -> P s -> P (run cfg ins s).
Proof.
  intros Step ins. induction ins as [|i ins IH]; intros s Hok Hs; [exact Hs|].
  inversion Hok as [|? ? Hi Hins]; subst.
  cbn [run]. apply IH; [exact Hins|]. apply Step; assumption.
Qed.

Lemma run_invariant_all (cfg : Config) (P : Sketch -> Prop) :
  (forall i s, P s -> P (loop cfg i s)) ->
  forall ins s, P s -> P (run cfg ins s).
Proof.
  intros Step ins s Hs.
  apply (run_invariant cfg (fun _ => True) P); [auto| |exact Hs].
  apply Forall_forall. trivial.
Qed.

Lemma loop_cases (cfg : Config) (i : Inputs) (s : Sketch) :
  (systemReady s = false /\ loop cfg i s = locked_state cfg i s) \/
  (systemReady s = true /\ loop cfg i s = unlocked_state cfg i s).
Proof.
  destruct (systemReady s) eqn:R.
  - right. split; [reflexivity|]. apply loop_unlocked, R.
  - left. split; [reflexivity|]. apply loop_locked, R.
Qed.

Lemma locked_before (cfg : Config) (i : Inputs) (s : Sketch) :
  systemReady (loop cfg i s) = false -> systemReady s = false.
Proof.
  intros H. destruct (systemReady s) eqn:R; [|reflexivity].
  rewrite (loop_stays_ready cfg s R i) in H. discriminate H.
Qed.

Lemma off_writes_harmless : forallb harmless off_writes = true.
Proof. reflexivity. Qed.

Lemma arm_writes_harmless (cfg : Config) (i : Inputs) :
  forallb harmless (arm_writes cfg i) = true.
Proof.
  unfold arm_writes.
  destruct (pot i <? potZeroThreshold cfg), (button i =? LOW); reflexivity.
Qed.

Lemma fade_writes_harmless (cfg : Config) (i : Inputs) (s : Sketch) :
  forallb harmless (fade_writes cfg i s) = true.
Proof. unfold fade_writes. destruct (fade_due cfg i s); reflexivity. Qed.

(** X1.  Up to arming nothing is energised: a run from [setup()] that
    ends with [systemReady] false has the motor stopped, both direction
    lines low, relay and heater LED low, and not one write since power-on,
    [setup()]'s included, has put a non-zero level on one of those pins. *)
Theorem never_energised_while_locked (cfg : Config) (ins : list Inputs) :
  systemReady (run cfg ins boot) = false ->
  actuators_off (run cfg ins boot) /\
  forallb harmless (trace (run cfg ins boot)) = true.
Proof.
  apply (run_invariant_all cfg
           (fun s => systemReady s = false ->
                     actuators_off s /\ forallb harmless (trace s) = true)).
  - intros i s IH H.
    pose proof (locked_before cfg i s H) as R.
    destruct (IH R) as [_ Ht].
    rewrite (loop_locked cfg i s R). split; [apply locked_state_off|].
    rewrite locked_state_record. fields.
    rewrite !forallb_app, off_writes_harmless, arm_writes_harmless,
      fade_writes_harmless, Ht. reflexivity.
  - intros _. split; [|reflexivity]. unfold actuators_off. repeat split.
Qed.

Lemma never_energised_while_locked_witness :
  systemReady (run heplast [pot_up_pass; pot_zero_pass] boot) = false /\
  actuators_off (run heplast [pot_up_pass; pot_zero_pass] boot) /\
  forallb harmless (trace (run heplast [pot_up_pass; pot_zero_pass] boot))
  = true.
Proof.
  split; [reflexivity|].
  apply (never_energised_while_locked heplast [pot_up_pass; pot_zero_pass]).
  reflexivity.
Defined.

(** X2.  From a locked state, a run ends armed exactly when at least one
    of its passes read the pot below [potZeroThreshold] with the button
    LOW; passes after that one do not matter. *)
Theorem armed_iff_some_pass (cfg : Config) (ins : list Inputs) (s : Sketch) :
  systemReady s = false ->
  systemReady (run cfg ins s) = existsb (arm_condition cfg) ins.
Proof.
  revert s. induction ins as [|i ins IH]; intros s H; [exact H|].
  cbn [run existsb].
  pose proof (locked_state_ready cfg i s H) as E.
  rewrite <- (loop_locked cfg i s H) in E.
  destruct (arm_condition cfg i).
  - pose proof (run_unlocked cfg ins _ E) as G.
    unfold globals in G. injection G as G _ _ _. rewrite G. exact E.
  - apply IH, E.
Qed.

Lemma armed_iff_some_pass_witness :
  systemReady boot = false /\
  systemReady (run heplast [held_button_pass; arming_pass; full_speed_pass] boot)
  = existsb (arm_condition heplast)
      [held_button_pass; arming_pass; full_speed_pass].
Proof.
  split; [reflexivity|].
  apply (armed_iff_some_pass heplast
           [held_button_pass; arming_pass; full_speed_pass] boot).
  reflexivity.
Defined.

Lemma unlock_notices_app (l1 l2 : list Event) :
  unlock_notices (l1 ++ l2) = (unlock_notices l1 + unlock_notices l2)%nat.
Proof. unfold unlock_notices. now rewrite filter_app, length_app. Qed.

Lemma arm_writes_notices (cfg : Config) (i : Inputs) :
  unlock_notices (arm_writes cfg i) = if arm_condition cfg i then 1%nat else 0%nat.
Proof.
  unfold arm_writes, arm_condition.
  destruct (pot i <? potZeroThreshold cfg), (button i =? LOW); reflexivity.
Qed.

Lemma fade_writes_notices (cfg : Config) (i : Inputs) (s : Sketch) :
  unlock_notices (fade_writes cfg i s) = 0%nat.
Proof. unfold fade_writes. destruct (fade_due cfg i s); reflexivity. Qed.

(** X3.  The line ">> SYSTEM UNLOCKED <<" goes out on Serial once per
    power-on: after any run from [setup()] the trace holds it exactly once
    if the sketch is armed and not at all if it is still locked. *)
Theorem unlock_notice_once (cfg : Config) (ins : list Inputs) :
  unlock_notices (trace (run cfg ins boot)) =
  if systemReady (run cfg ins boot) then 1%nat else 0%nat.
Proof.
  apply (run_invariant_all cfg
           (fun s => unlock_notices (trace s) =
                     if systemReady s then 1%nat else 0%nat));
    [|reflexivity].
  intros i s IH.
  destruct (loop_cases cfg i s) as [[R E]|[R E]]; rewrite E; rewrite R in IH.
  - rewrite locked_state_record. fields.
    rewrite !unlock_notices_app, arm_writes_notices, fade_writes_notices, IH, R.
    destruct (arm_condition cfg i); reflexivity.
  - rewrite unlocked_state_eq. fields.
    rewrite unlock_notices_app, IH, R. reflexivity.
Qed.

(** X4.  The status LED follows the state: in every state reached from
    [setup()] it is at [maxBreathBrightness] if the sketch is armed and at
    [fadeValue] if it is locked. *)
Theorem status_led_tracks_state (cfg : Config) (ins : list Inputs) :
  led_ready (run cfg ins boot) =
  if systemReady (run cfg ins boot) then maxBreathBrightness cfg
  else fadeValue (run cfg ins boot).
Proof.
  apply (run_invariant_all cfg
           (fun s => led_ready s =
                     if systemReady s then maxBreathBrightness cfg
                     else fadeValue s));
    [|reflexivity].
  intros i s IH.
  destruct (loop_cases cfg i s) as [[R E]|[R E]]; rewrite E; rewrite R in IH.
  - rewrite locked_state_record. fields. rewrite R.
    destruct (arm_condition cfg i); [reflexivity|].
    destruct (fade_due cfg i s); [reflexivity|exact IH].
  - rewrite unlocked_state_eq. fields. rewrite R. reflexivity.
Qed.

Lemma last_lcd_app (row : Z) (l1 l2 : list Event) :
  last_lcd row (l1 ++ l2) =
  match last_lcd row l1 with
  | Some t => Some t
  | None => last_lcd row l2
  end.
Proof.
  induction l1 as [|e l1 IH]; [reflexivity|].
  cbn [app last_lcd]. destruct e; try exact IH.
  destruct (row0 =? row); [reflexivity|exact IH].
Qed.

(** X5.  The display follows the pass: after any pass the text last
    printed on LCD row 1 is "System Active" if the pass ends armed, else
    "Press Button..." if it read the pot below [potZeroThreshold], else
    "Set pot to zero"; the three texts have the same length. *)
Theorem status_phrase_after_pass (cfg : Config) (i : Inputs) (s : Sketch) :
  last_lcd 1 (trace (loop cfg i s)) =
  Some (status_phrase cfg i (systemReady (loop cfg i s))) /\
  String.length (status_phrase cfg i (systemReady (loop cfg i s))) = 17%nat.
Proof.
  split.
  - destruct (loop_cases cfg i s) as [[R E]|[R E]]; rewrite E.
    + rewrite locked_state_record. fields. rewrite R.
      rewrite !last_lcd_app.
      unfold arm_writes, arm_condition, status_phrase.
      destruct (pot i <? potZeroThreshold cfg), (button i =? LOW);
        reflexivity.
    + rewrite unlocked_state_eq. fields. rewrite R. reflexivity.
  - unfold status_phrase.
    destruct (systemReady _), (pot i <? potZeroThreshold cfg); reflexivity.
Qed.

(** ** The fade timer *)

Lemma stamp_in_range (cfg : Config) (ins : list Inputs) :
  0 <= prevFadeMillis (run cfg ins boot) < 2 ^ 32.
Proof.
  apply (run_invariant_all cfg (fun s => 0 <= prevFadeMillis s < 2 ^ 32)).
  - intros i s IH.
    destruct (loop_cases cfg i s) as [[R E]|[R E]]; rewrite E.
    + rewrite locked_state_record. fields.
      destruct (fade_due cfg i s); [|exact IH].
      unfold AVR.ulong. apply Z.mod_pos_bound. reflexivity.
    + rewrite unlocked_state_eq. fields. exact IH.
  - change (prevFadeMillis boot) with 0. split; [lia|reflexivity].
Qed.

Lemma ulong_elapsed (prev e : Z) :
  0 <= e < 2 ^ 32 -> AVR.ulong (AVR.ulong (prev + e) - prev) = e.
Proof.
  intros He. unfold AVR.ulong.
  rewrite Zminus_mod_idemp_l.
  replace (prev + e - prev) with e by lia.
  apply Z.mod_small, He.
Qed.

(** X6.  The fade timer survives the rollover of [millis()]: in any state
    reached from [setup()], if [e] milliseconds (fewer than 2^32) have
    passed since the stored stamp, the timer's test holds exactly when
    [fadeDelay <= e], whether or not the 32-bit clock wrapped in between. *)
Theorem fade_timer_rollover
    (cfg : Config) (ins : list Inputs) (i : Inputs) (e : Z) :
  0 <= fadeDelay cfg < 2 ^ 32 ->
  0 <= e < 2 ^ 32 ->
  millis_test i = prevFadeMillis (run cfg ins boot) + e ->
  fade_due cfg i (run cfg ins boot) = (fadeDelay cfg <=? e).
Proof.
  intros Hd He Hnow. unfold fade_due.
  rewrite Hnow, (ulong_elapsed _ e He).
  unfold AVR.ulong at 1. rewrite (Z.mod_small _ _ Hd).
  apply Z.geb_leb.
Qed.

Lemma fade_timer_rollover_witness :
  0 <= fadeDelay heplast < 2 ^ 32 /\
  0 <= 100 < 2 ^ 32 /\
  prevFadeMillis (run heplast [before_rollover_pass] boot) = 2 ^ 32 - 10 /\
  AVR.ulong (millis_test after_rollover_pass) = 90 /\
  fade_due heplast after_rollover_pass (run heplast [before_rollover_pass] boot)
  = (fadeDelay heplast <=? 100).
Proof.
  split; [split; [discriminate|reflexivity]|].
  split; [split; [discriminate|reflexivity]|].
  split; [vm_compute; reflexivity|].
  split; [vm_compute; reflexivity|].
  apply (fade_timer_rollover heplast [before_rollover_pass]
           after_rollover_pass 100).
  - split; [discriminate|reflexivity].
  - split; [discriminate|reflexivity].
  - vm_compute. reflexivity.
Defined.

(** ** What the pins are never given *)

Lemma next_fade_phase (n : nat) (s : Sketch) :
  at_phase n s -> next_fadeValue s = triangle (S n).
Proof.
  intros P.
  destruct (breathe_phase n 0 s P) as (E & _).
  rewrite breathe_eq in E. exact E.
Qed.

Lemma valid_analog (p : Pin) (d : Z) :
  0 <= d <= 255 -> valid_write (AnalogWrite p d) = true.
Proof.
  intros [H0 H1]. cbn [valid_write].
  apply andb_true_intro. split; apply Z.leb_le; assumption.
Qed.

Lemma off_writes_valid : forallb valid_write off_writes = true.
Proof. reflexivity. Qed.

Lemma arm_writes_valid (i : Inputs) :
  forallb valid_write (arm_writes heplast i) = true.
Proof.
  unfold arm_writes.
  destruct (pot i <? potZeroThreshold heplast), (button i =? LOW);
    reflexivity.
Qed.

Lemma fade_writes_valid (n : nat) (i : Inputs) (s : Sketch) :
  at_phase n s -> forallb valid_write (fade_writes heplast i s) = true.
Proof.
  intros P. unfold fade_writes.
  destruct (fade_due heplast i s); [|reflexivity].
  cbn [forallb]. rewrite valid_analog; [reflexivity|].
  rewrite (next_fade_phase n s P).
  pose proof (triangle_bounds (S n)). lia.
Qed.

Lemma unlocked_writes_valid (i : Inputs) :
  0 <= pot i <= 1023 ->
  forallb valid_write (unlocked_writes heplast i) = true.
Proof.
  intros Hp.
  assert (B : 0 <= motorPWM (pot i) <= 255).
  { rewrite motorPWM_in_range by exact Hp. apply rescale_bounds; lia. }
  unfold unlocked_writes. change (heater_level heplast) with LOW.
  cbn [forallb]. rewrite (valid_analog MOTOR_ENB _ B). reflexivity.
Qed.

(** X7.  With the pot readings within [0, 1023], the sketch as built never
    writes a value a pin does not take: in any run from [setup()] every
    [digitalWrite] carries LOW or HIGH and every [analogWrite] a duty
    within [0, 255]. *)
Theorem writes_stay_valid (ins : list Inputs) :
  Forall (fun i => 0 <= pot i <= 1023) ins ->
  forallb valid_write (trace (run heplast ins boot)) = true.
Proof.
  intros Hok.
  enough (G : (exists n, at_phase n (run heplast ins boot)) /\
              forallb valid_write (trace (run heplast ins boot)) = true)
    by apply G.
  apply (run_invariant heplast (fun i => 0 <= pot i <= 1023)
           (fun s => (exists n, at_phase n s) /\
                     forallb valid_write (trace s) = true));
    [|exact Hok|].
  - intros i s Hp [[n P] Ht]. split.
    + eexists. apply (loop_phase n i s P).
    + destruct (loop_cases heplast i s) as [[R E]|[R E]]; rewrite E.
      * rewrite locked_state_record. fields.
        rewrite !forallb_app, off_writes_valid, arm_writes_valid,
          (fade_writes_valid n i s P), Ht. reflexivity.
      * rewrite unlocked_state_eq. fields.
        rewrite forallb_app, (unlocked_writes_valid i Hp), Ht. reflexivity.
  - split; [exists O; exact boot_phase|reflexivity].
Qed.

Lemma writes_stay_valid_witness :
  Forall (fun i => 0 <= pot i <= 1023)
    [pot_up_pass; arming_pass; full_speed_pass] /\
  forallb valid_write
    (trace (run heplast [pot_up_pass; arming_pass; full_speed_pass] boot))
  = true.
Proof.
  assert (H : Forall (fun i => 0 <= pot i <= 1023)
                [pot_up_pass; arming_pass; full_speed_pass]).
  { repeat constructor; discriminate. }
  split; [exact H|].
  apply (writes_stay_valid [pot_up_pass; arming_pass; full_speed_pass] H).
Defined.

Lemma off_writes_no_reverse : forallb no_reverse_write off_writes = true.
Proof. reflexivity. Qed.

Lemma arm_writes_no_reverse (cfg : Config) (i : Inputs) :
  forallb no_reverse_write (arm_writes cfg i) = true.
Proof.
  unfold arm_writes.
  destruct (pot i <? potZeroThreshold cfg), (button i =? LOW); reflexivity.
Qed.

Lemma fade_writes_no_reverse (cfg : Config) (i : Inputs) (s : Sketch) :
  forallb no_reverse_write (fade_writes cfg i s) = true.
Proof. unfold fade_writes. destruct (fade_due cfg i s); reflexivity. Qed.

(** X8.  The motor is never put in reverse or braked: in every state
    reached from [setup()] IN4 is low, no write has ever put another level
    on it, and IN3 is high only when the sketch is armed. *)
Theorem never_reverse (cfg : Config) (ins : list Inputs) :
  motor_in4 (run cfg ins boot) = LOW /\
  forallb no_reverse_write (trace (run cfg ins boot)) = true /\
  (motor_in3 (run cfg ins boot) = LOW \/
   motor_in3 (run cfg ins boot) = HIGH /\
   systemReady (run cfg ins boot) = true).
Proof.
  apply (run_invariant_all cfg
           (fun s => motor_in4 s = LOW /\
                     forallb no_reverse_write (trace s) = true /\
                     (motor_in3 s = LOW \/
                      motor_in3 s = HIGH /\ systemReady s = true))).
  - intros i s (_ & Ht & _).
    destruct (loop_cases cfg i s) as [[R E]|[R E]]; rewrite E.
    + rewrite locked_state_record. fields.
      split; [reflexivity|]. split; [|left; reflexivity].
      rewrite !forallb_app, off_writes_no_reverse, arm_writes_no_reverse,
        fade_writes_no_reverse, Ht. reflexivity.
    + rewrite unlocked_state_eq. fields.
      split; [reflexivity|]. split; [|right; split; [reflexivity|exact R]].
      rewrite forallb_app, Ht. reflexivity.
  - split; [reflexivity|]. split; [reflexivity|]. left. reflexivity.
Qed.

(** X9.  Relay and heater LED move together: in every state reached from
    [setup()] the two pins carry the same level, and that level is HIGH
    only if the sketch is armed and [roomTempMock < targetTemp]. *)
Theorem heater_lockstep (cfg : Config) (ins : list Inputs) :
  relay_pin (run cfg ins boot) = heater_led (run cfg ins boot) /\
  (relay_pin (run cfg ins boot) = HIGH ->
   systemReady (run cfg ins boot) = true /\
   AVR.flt (roomTempMock cfg) (targetTemp cfg) = true).
Proof.
  apply (run_invariant_all cfg
           (fun s => relay_pin s = heater_led s /\
                     (relay_pin s = HIGH ->
                      systemReady s = true /\
                      AVR.flt (roomTempMock cfg) (targetTemp cfg) = true))).
  - intros i s _.
    destruct (loop_cases cfg i s) as [[R E]|[R E]]; rewrite E.
    + rewrite locked_state_record. fields.
      split; [reflexivity|]. intros H. discriminate H.
    + rewrite unlocked_state_eq. fields.
      split; [reflexivity|]. intros H.
      split; [exact R|]. apply (heater_level_cases cfg), H.
  - split; [reflexivity|]. intros H. discriminate H.
Qed.

Lemma off_writes_heater_idle : forallb heater_idle_write off_writes = true.
Proof. reflexivity. Qed.

Lemma arm_writes_heater_idle (cfg : Config) (i : Inputs) :
  forallb heater_idle_write (arm_writes cfg i) = true.
Proof.
  unfold arm_writes.
  destruct (pot i <? potZeroThreshold cfg), (button i =? LOW); reflexivity.
Qed.

Lemma fade_writes_heater_idle (cfg : Config) (i : Inputs) (s : Sketch) :
  forallb heater_idle_write (fade_writes cfg i s) = true.
Proof. unfold fade_writes. destruct (fade_due cfg i s); reflexivity. Qed.

(** X10.  With the constants the sketch is built with the heater never
    comes on: in any run from [setup()], armed or not and whatever the
    inputs, relay and heater LED are low and no write has ever put
    another level on either. *)
Theorem builtin_heater_never_on (ins : list Inputs) :
  relay_pin (run heplast ins boot) = LOW /\
  heater_led (run heplast ins boot) = LOW /\
  forallb heater_idle_write (trace (run heplast ins boot)) = true.
Proof.
  apply (run_invariant_all heplast
           (fun s => relay_pin s = LOW /\ heater_led s = LOW /\
                     forallb heater_idle_write (trace s) = true)).
  - intros i s (_ & _ & Ht).
    destruct (loop_cases heplast i s) as [[R E]|[R E]]; rewrite E.
    + rewrite locked_state_record. fields.
      split; [reflexivity|]. split; [reflexivity|].
      rewrite !forallb_app, off_writes_heater_idle, arm_writes_heater_idle,
        fade_writes_heater_idle, Ht. reflexivity.
    + rewrite unlocked_state_eq. fields.
      change (heater_level heplast) with LOW.
      split; [reflexivity|]. split; [reflexivity|].
      rewrite forallb_app, Ht.
      unfold unlocked_writes. change (heater_level heplast) with LOW.
      reflexivity.
  - split; [reflexivity|]. split; reflexivity.
Qed.

(** ** The input sampler on every reading *)

Lemma quot_1023_bounds (a : Z) :
  - Z.abs a <= 1023 * Z.quot a 1023 <= Z.abs a /\
  Z.abs (Z.quot a 1023) <= Z.abs a.
Proof.
  pose proof (Z.quot_rem' a 1023) as E.
  destruct (Z.le_gt_cases 0 a) as [H|H].
  - pose proof (Z.rem_bound_pos a 1023 H ltac:(lia)). lia.
  - pose proof (Z.rem_bound_pos_neg a 1023 ltac:(lia) ltac:(lia)). lia.
Qed.

Lemma map_any_int (v hi : Z) :
  AVR.in_int v -> 0 <= hi <= 1023 ->
  map v 0 1023 0 hi = Z.quot (v * hi) 1023.
Proof.
  unfold AVR.in_int, AVR.INT_MIN, AVR.INT_MAX.
  intros Hv Hhi. unfold map.
  assert (P : - (2 ^ 15 * 1023) <= v * hi <= 2 ^ 15 * 1023) by nia.
  pose proof (quot_1023_bounds (v * hi)) as [_ B].
  rewrite !Z.sub_0_r, Z.add_0_r.
  rewrite (long_small v), (long_small hi), (long_small 1023) by lia.
  rewrite (long_small (v * hi)) by lia.
  rewrite (long_small (Z.quot (v * hi) 1023)) by lia.
  apply long_small. lia.
Qed.

Lemma motorPWM_any_int (v : Z) :
  AVR.in_int v -> motorPWM v = Z.quot (v * 255) 1023.
Proof.
  intros Hv. unfold motorPWM. rewrite map_any_int by (assumption || lia).
  apply int_small.
  unfold AVR.in_int, AVR.INT_MIN, AVR.INT_MAX in *.
  pose proof (quot_1023_bounds (v * 255)) as [B _]. lia.
Qed.

Lemma rpmCenti_any_int (v : Z) :
  AVR.in_int v -> rpmCenti v = Z.quot (v * 300) 1023.
Proof. intros Hv. unfold rpmCenti. apply map_any_int; [assumption|lia]. Qed.

(** X11.  [map] does not overflow on anything an [int] can hold: for every
    reading in [-32768, 32767] the duty is [v * 255] divided by 1023 and
    the target speed in hundredths [v * 300] divided by 1023, both
    truncated toward zero, the duty fits an [int] again, and a negated
    reading gives the negated results. *)
Theorem sampler_on_any_int (v : Z) :
  AVR.in_int v ->
  motorPWM v = Z.quot (v * 255) 1023 /\
  rpmCenti v = Z.quot (v * 300) 1023 /\
  -8167 <= motorPWM v <= 8167 /\
  -9609 <= rpmCenti v <= 9609 /\
  (AVR.in_int (- v) ->
   motorPWM (- v) = - motorPWM v /\ rpmCenti (- v) = - rpmCenti v).
Proof.
  intros Hv.
  rewrite (motorPWM_any_int v Hv), (rpmCenti_any_int v Hv).
  split; [reflexivity|]. split; [reflexivity|].
  pose proof (quot_1023_bounds (v * 255)) as [B1 _].
  pose proof (quot_1023_bounds (v * 300)) as [B2 _].
  unfold AVR.in_int, AVR.INT_MIN, AVR.INT_MAX in Hv.
  split; [lia|]. split; [lia|].
  intros Hn.
  rewrite (motorPWM_any_int _ Hn), (rpmCenti_any_int _ Hn).
  rewrite !Z.mul_opp_l, !Z.quot_opp_l by lia.
  split; reflexivity.
Qed.

Lemma sampler_on_any_int_witness :
  AVR.in_int (-32768) /\
  motorPWM (-32768) = Z.quot (-32768 * 255) 1023 /\
  rpmCenti (-32768) = Z.quot (-32768 * 300) 1023 /\
  -8167 <= motorPWM (-32768) <= 8167 /\
  -9609 <= rpmCenti (-32768) <= 9609 /\
  (AVR.in_int (- -32768) ->
   motorPWM (- -32768) = - motorPWM (-32768) /\
   rpmCenti (- -32768) = - rpmCenti (-32768)).
Proof.
  assert (H : AVR.in_int (-32768)).
  { unfold AVR.in_int, AVR.INT_MIN, AVR.INT_MAX. lia. }
  split; [exact H|].
  apply (sampler_on_any_int (-32768) H).
Defined.

(** X12.  Full scale is reached only at the very top of the pot: for a
    reading within [0, 1023] the duty is 255 exactly at 1023 and the
    target speed is 3.00 exactly at 1023, while the duty is 0 on readings
    0 to 4 and the target speed 0.00 on readings 0 to 3. *)
Theorem full_scale_only_at_top (v : Z) :
  0 <= v <= 1023 ->
  (motorPWM v = 255 <-> v = 1023) /\
  (rpmCenti v = 300 <-> v = 1023) /\
  (motorPWM v = 0 <-> v <= 4) /\
  (rpmCenti v = 0 <-> v <= 3).
Proof.
  intros Hv.
  rewrite (motorPWM_in_range v Hv), (rpmCenti_in_range v Hv).
  pose proof (Z.div_mod (v * 255) 1023 ltac:(lia)) as E1.
  pose proof (Z.mod_pos_bound (v * 255) 1023 ltac:(lia)) as B1.
  pose proof (Z.div_mod (v * 300) 1023 ltac:(lia)) as E2.
  pose proof (Z.mod_pos_bound (v * 300) 1023 ltac:(lia)) as B2.
  repeat split; intros; lia.
Qed.

Lemma full_scale_only_at_top_witness :
  0 <= 1022 <= 1023 /\
  (motorPWM 1022 = 255 <-> 1022 = 1023) /\
  (rpmCenti 1022 = 300 <-> 1022 = 1023) /\
  (motorPWM 1022 = 0 <-> 1022 <= 4) /\
  (rpmCenti 1022 = 0 <-> 1022 <= 3).
Proof.
  split; [lia|]. apply (full_scale_only_at_top 1022). lia.
Defined.

(** X13.  Every duty can be dialled: for each [d] in [0, 255],
    [pot_for_duty d] is a reading within [0, 1023] whose duty is [d], and
    every lower reading gives a lower duty; likewise each number of
    hundredths in [0, 300] has a lowest reading [pot_for_centi]. *)
Theorem every_duty_reachable (d n : Z) :
  0 <= d <= 255 -> 0 <= n <= 300 ->
  (0 <= pot_for_duty d <= 1023 /\
   motorPWM (pot_for_duty d) = d /\
   (forall v, 0 <= v < pot_for_duty d -> motorPWM v < d)) /\
  (0 <= pot_for_centi n <= 1023 /\
   rpmCenti (pot_for_centi n) = n /\
   (forall v, 0 <= v < pot_for_centi n -> rpmCenti v < n)).
Proof.
  intros Hd Hn. unfold pot_for_duty, pot_for_centi.
  pose proof (Z.div_mod (d * 1023 + 254) 255 ltac:(lia)) as E1.
  pose proof (Z.mod_pos_bound (d * 1023 + 254) 255 ltac:(lia)) as B1.
  pose proof (Z.div_mod (n * 1023 + 299) 300 ltac:(lia)) as E2.
  pose proof (Z.mod_pos_bound (n * 1023 + 299) 300 ltac:(lia)) as B2.
  set (p := (d * 1023 + 254) / 255) in *.
  set (q := (n * 1023 + 299) / 300) in *.
  assert (Hp : 0 <= p <= 1023) by lia.
  assert (Hq : 0 <= q <= 1023) by lia.
  split; (split; [assumption|]).
  - split.
    + rewrite (motorPWM_in_range p Hp).
      pose proof (Z.div_mod (p * 255) 1023 ltac:(lia)).
      pose proof (Z.mod_pos_bound (p * 255) 1023 ltac:(lia)). lia.
    + intros v Hv. rewrite (motorPWM_in_range v) by lia.
      pose proof (Z.div_mod (v * 255) 1023 ltac:(lia)).
      pose proof (Z.mod_pos_bound (v * 255) 1023 ltac:(lia)). lia.
  - split.
    + rewrite (rpmCenti_in_range q Hq).
      pose proof (Z.div_mod (q * 300) 1023 ltac:(lia)).
      pose proof (Z.mod_pos_bound (q * 300) 1023 ltac:(lia)). lia.
    + intros v Hv. rewrite (rpmCenti_in_range v) by lia.
      pose proof (Z.div_mod (v * 300) 1023 ltac:(lia)).
      pose proof (Z.mod_pos_bound (v * 300) 1023 ltac:(lia)). lia.
Qed.

Lemma every_duty_reachable_witness :
  0 <= 128 <= 255 /\ 0 <= 150 <= 300 /\
  (0 <= pot_for_duty 128 <= 1023 /\
   motorPWM (pot_for_duty 128) = 128 /\
   (forall v, 0 <= v < pot_for_duty 128 -> motorPWM v < 128)) /\
  (0 <= pot_for_centi 150 <= 1023 /\
   rpmCenti (pot_for_centi 150) = 150 /\
   (forall v, 0 <= v < pot_for_centi 150 -> rpmCenti v < 150)).
Proof.
  split; [lia|]. split; [lia|].
  apply (every_duty_reachable 128 150); lia.
Defined.

(** X14.  The knob has no jumps: moving the reading up by one count
    within [0, 1023] leaves the duty where it was or raises it by one, and
    the same holds for the target speed in hundredths. *)
Theorem sampler_steps_by_one (v : Z) :
  0 <= v < 1023 ->
  motorPWM v <= motorPWM (v + 1) <= motorPWM v + 1 /\
  rpmCenti v <= rpmCenti (v + 1) <= rpmCenti v + 1.
Proof.
  intros Hv.
  rewrite !motorPWM_in_range, !rpmCenti_in_range by lia.
  pose proof (Z.div_mod (v * 255) 1023 ltac:(lia)).
  pose proof (Z.mod_pos_bound (v * 255) 1023 ltac:(lia)).
  pose proof (Z.div_mod ((v + 1) * 255) 1023 ltac:(lia)).
  pose proof (Z.mod_pos_bound ((v + 1) * 255) 1023 ltac:(lia)).
  pose proof (Z.div_mod (v * 300) 1023 ltac:(lia)).
  pose proof (Z.mod_pos_bound (v * 300) 1023 ltac:(lia)).
  pose proof (Z.div_mod ((v + 1) * 300) 1023 ltac:(lia)).
  pose proof (Z.mod_pos_bound ((v + 1) * 300) 1023 ltac:(lia)).
  lia.
Qed.

Lemma sampler_steps_by_one_witness :
  0 <= 4 < 1023 /\
  motorPWM 4 <= motorPWM (4 + 1) <= motorPWM 4 + 1 /\
  rpmCenti 4 <= rpmCenti (4 + 1) <= rpmCenti 4 + 1.
Proof.
  split; [lia|]. apply (sampler_steps_by_one 4). lia.
Defined.

(** X15.  The sketch as built arms only with the knob down: on a pass
    that takes it from locked to armed the reading, an [int], commands a
    duty of at most 4 and a target speed of at most 0.05, and the motor
    duty the pass leaves on the pin is 0. *)
Theorem arming_needs_low_duty (i : Inputs) (s : Sketch) :
  systemReady s = false ->
  systemReady (loop heplast i s) = true ->
  AVR.in_int (pot i) ->
  motorPWM (pot i) <= 4 /\ rpmCenti (pot i) <= 5 /\
  motor_enb (loop heplast i s) = 0.
Proof.
  intros H R Hint.
  rewrite (loop_locked heplast i s H) in R |- *.
  rewrite (locked_state_ready heplast i s H) in R.
  unfold arm_condition in R. apply andb_true_iff in R. destruct R as [Hp _].
  apply Z.ltb_lt in Hp. change (potZeroThreshold heplast) with 20 in Hp.
  rewrite (motorPWM_any_int _ Hint), (rpmCenti_any_int _ Hint).
  pose proof (Z.quot_rem' (pot i * 255) 1023) as E1.
  pose proof (Z.quot_rem' (pot i * 300) 1023) as E2.
  destruct (locked_state_off heplast i s) as (M & _).
  split; [|split; [|exact M]].
  - destruct (Z.le_gt_cases 0 (pot i)) as [P|P].
    + pose proof (Z.rem_bound_pos (pot i * 255) 1023 ltac:(lia) ltac:(lia)).
      lia.
    + pose proof (Z.rem_bound_pos_neg (pot i * 255) 1023 ltac:(lia) ltac:(lia)).
      lia.
  - destruct (Z.le_gt_cases 0 (pot i)) as [P|P].
    + pose proof (Z.rem_bound_pos (pot i * 300) 1023 ltac:(lia) ltac:(lia)).
      lia.
    + pose proof (Z.rem_bound_pos_neg (pot i * 300) 1023 ltac:(lia) ltac:(lia)).
      lia.
Qed.

Lemma arming_needs_low_duty_witness :
  systemReady boot = false /\
  systemReady (loop heplast arming_pass boot) = true /\
  AVR.in_int (pot arming_pass) /\
  motorPWM (pot arming_pass) <= 4 /\ rpmCenti (pot arming_pass) <= 5 /\
  motor_enb (loop heplast arming_pass boot) = 0.
Proof.
  assert (H : AVR.in_int (pot arming_pass)).
  { unfold AVR.in_int, AVR.INT_MIN, AVR.INT_MAX. cbn [pot arming_pass]. lia. }
  split; [reflexivity|]. split; [reflexivity|]. split; [exact H|].
  apply (arming_needs_low_duty arming_pass boot); [reflexivity|reflexivity|].
  exact H.
Defined.

Lemma forallb_upto_signed (n : nat) (f : Z -> bool) (z : Z) :
  forallb (fun k => f k && f (- k)) (upto n) = true ->
  - Z.of_nat n <= z <= Z.of_nat n -> f z = true.
Proof.
  intros Hall Hz.
  destruct (Z.le_gt_cases 0 z) as [P|P].
  - pose proof (forallb_upto n _ z Hall ltac:(lia)) as H.
    apply andb_true_iff in H. apply H.
  - pose proof (forallb_upto n _ (- z) Hall ltac:(lia)) as H.
    apply andb_true_iff in H. destruct H as [_ H].
    rewrite Z.opp_involutive in H. exact H.
Qed.

Lemma hundredths_round_trip (n : Z) :
  -9609 <= n <= 9609 -> (centi_of_float (hundredths n) =? n) = true.
Proof.
  intros Hn.
  apply (forallb_upto_signed (Z.to_nat 9609)
           (fun k => centi_of_float (hundredths k) =? k)).
  - vm_compute. reflexivity.
  - rewrite Z2Nat.id; lia.
Qed.

(** X16.  The [float] target speed loses nothing: for every reading an
    [int] can hold, rounding [rpmTarget] times 100 to the nearest integer
    gives back the hundredths [map] computed, so readings with different
    hundredths have different target speeds. *)
Theorem target_speed_round_trip (v w : Z) :
  AVR.in_int v -> AVR.in_int w ->
  centi_of_float (rpmTarget v) = rpmCenti v /\
  (rpmTarget v = rpmTarget w -> rpmCenti v = rpmCenti w).
Proof.
  intros Hv Hw.
  assert (RT : forall u, AVR.in_int u ->
                         centi_of_float (rpmTarget u) = rpmCenti u).
  { intros u Hu. rewrite rpmTarget_eq. apply Z.eqb_eq.
    apply hundredths_round_trip.
    rewrite (rpmCenti_any_int u Hu).
    pose proof (quot_1023_bounds (u * 300)) as [B _].
    unfold AVR.in_int, AVR.INT_MIN, AVR.INT_MAX in Hu. lia. }
  split; [exact (RT v Hv)|].
  intros E. rewrite <- (RT v Hv), <- (RT w Hw), E. reflexivity.
Qed.

Lemma target_speed_round_trip_witness :
  AVR.in_int 1022 /\ AVR.in_int (-7) /\
  centi_of_float (rpmTarget 1022) = rpmCenti 1022 /\
  (rpmTarget 1022 = rpmTarget (-7) -> rpmCenti 1022 = rpmCenti (-7)).
Proof.
  assert (H1 : AVR.in_int 1022).
  { unfold AVR.in_int, AVR.INT_MIN, AVR.INT_MAX. lia. }
  assert (H2 : AVR.in_int (-7)).
  { unfold AVR.in_int, AVR.INT_MIN, AVR.INT_MAX. lia. }
  split; [exact H1|]. split; [exact H2|].
  apply (target_speed_round_trip 1022 (-7) H1 H2).
Defined.
